(** * Drive clone: the file metadata lifecycle of the REST backend

    The backend (an Express application over one SQLite table [files] and an
    S3 bucket) and the client-side section filter of the React front end are
    embedded as Rocq functions.  Each request handler is a function from the
    world (table, bucket, effect log) to a response and a new world; what
    the handler cannot decide itself (whether the S3 service carries out a
    command, what the clocks show) is an explicit argument.  The temporary
    file that multer wrote is taken to be readable and removable, and the
    statements of SQLite to fail only on a constraint.

    Numbers: JavaScript numbers are modelled by [Z] (with a separate [NaN]
    where the code can produce it), with exact arithmetic.  That is the
    arithmetic of doubles on the safe integers ([safe_integer], up to
    2^53 - 1 in absolute value).  Past them JavaScript rounds, and SQLite
    refuses a limit or an offset outside the 64-bit integers; neither is
    modelled.  Strings are strings of code units below 256 (Latin-1). *)

From Stdlib Require Import ZArith List Ascii String Bool Lia Permutation Sorted.
From Stdlib Require Import Decimal Hexadecimal DecimalString DecimalN.
From stdpp Require Import gmap strings.

Import ListNotations.
Local Open Scope string_scope.
Local Open Scope list_scope.
Local Open Scope Z_scope.

(** ** JavaScript values and built-ins used by the handlers *)

(** The result of [parseInt]: a number or [NaN]. *)
Inductive JSNum : Type :=
  | NaN : JSNum
  | Num : Z -> JSNum.

(** [x || d] for a number [x]: [NaN] and [0] are falsy. *)
Definition or_default (x : JSNum) (d : Z) : Z :=
  match x with
  | NaN => d
  | Num z => if z =? 0 then d else z
  end.

(** White space skipped by [parseInt]: the code units of StrWhiteSpaceChar
    below 256, which are TAB, LF, VT, FF, CR, SP and NBSP (U+00A0). *)
Definition is_white_space (c : ascii) : bool :=
  match c with
  | " "%char | "009"%char | "010"%char | "011"%char | "012"%char | "013"%char
  | "160"%char => true
  | _ => false
  end.

Fixpoint trim_start (s : string) : string :=
  match s with
  | String c s' => if is_white_space c then trim_start s' else s
  | EmptyString => EmptyString
  end.

(** Longest prefix of decimal digits. *)
Fixpoint decimal_prefix (s : string) : Decimal.uint :=
  match s with
  | String c s' =>
      match c with
      | "0"%char => Decimal.D0 (decimal_prefix s')
      | "1"%char => Decimal.D1 (decimal_prefix s')
      | "2"%char => Decimal.D2 (decimal_prefix s')
      | "3"%char => Decimal.D3 (decimal_prefix s')
      | "4"%char => Decimal.D4 (decimal_prefix s')
      | "5"%char => Decimal.D5 (decimal_prefix s')
      | "6"%char => Decimal.D6 (decimal_prefix s')
      | "7"%char => Decimal.D7 (decimal_prefix s')
      | "8"%char => Decimal.D8 (decimal_prefix s')
      | "9"%char => Decimal.D9 (decimal_prefix s')
      | _ => Decimal.Nil
      end
  | EmptyString => Decimal.Nil
  end.

(** Longest prefix of hexadecimal digits, either case. *)
Fixpoint hex_prefix (s : string) : Hexadecimal.uint :=
  match s with
  | String c s' =>
      match c with
      | "0"%char => Hexadecimal.D0 (hex_prefix s')
      | "1"%char => Hexadecimal.D1 (hex_prefix s')
      | "2"%char => Hexadecimal.D2 (hex_prefix s')
      | "3"%char => Hexadecimal.D3 (hex_prefix s')
      | "4"%char => Hexadecimal.D4 (hex_prefix s')
      | "5"%char => Hexadecimal.D5 (hex_prefix s')
      | "6"%char => Hexadecimal.D6 (hex_prefix s')
      | "7"%char => Hexadecimal.D7 (hex_prefix s')
      | "8"%char => Hexadecimal.D8 (hex_prefix s')
      | "9"%char => Hexadecimal.D9 (hex_prefix s')
      | "a"%char | "A"%char => Hexadecimal.Da (hex_prefix s')
      | "b"%char | "B"%char => Hexadecimal.Db (hex_prefix s')
      | "c"%char | "C"%char => Hexadecimal.Dc (hex_prefix s')
      | "d"%char | "D"%char => Hexadecimal.Dd (hex_prefix s')
      | "e"%char | "E"%char => Hexadecimal.De (hex_prefix s')
      | "f"%char | "F"%char => Hexadecimal.Df (hex_prefix s')
      | _ => Hexadecimal.Nil
      end
  | EmptyString => Hexadecimal.Nil
  end.

(** The digits of [parseInt] with no radix argument: base 16 after a
    [0x]/[0X] prefix, base 10 otherwise; no digit gives [NaN]. *)
Definition parse_digits (s : string) : option Z :=
  match s with
  | String "0"%char (String ("x"%char | "X"%char) s') =>
      match hex_prefix s' with
      | Hexadecimal.Nil => None
      | h => Some (Z.of_N (N.of_hex_uint h))
      end
  | _ =>
      match decimal_prefix s with
      | Decimal.Nil => None
      | d => Some (Z.of_N (N.of_uint d))
      end
  end.

(** [parseInt(s)]: leading white space, an optional sign, then the digits.
    The result is the integer that the digits denote, which is the result
    of JavaScript when it is a safe integer. *)
Definition parseInt (s : string) : JSNum :=
  let s1 := trim_start s in
  let '(sign, s2) :=
    match s1 with
    | String "-"%char r => (-1, r)
    | String "+"%char r => (1, r)
    | _ => (1, s1)
    end in
  match parse_digits s2 with
  | Some m => Num (sign * m)
  | None => NaN
  end.

(** [String(n)] for an integer [n] (below 1e21 in absolute value). *)
Definition Number_toString (n : Z) : string :=
  if n <? 0
  then "-" +:+ NilEmpty.string_of_uint (N.to_uint (Z.to_N (- n)))
  else NilEmpty.string_of_uint (N.to_uint (Z.to_N n)).

(** [String.prototype.toLowerCase] on a code unit below 256: the letters
    A-Z and the capital letters of Latin-1 (U+00C0 to U+00DE without the
    multiplication sign U+00D7) go to the letter 32 further; every other
    code unit is kept. *)
Definition lower_char (c : ascii) : ascii :=
  let n := nat_of_ascii c in
  if (((65 <=? n)%nat && (n <=? 90)%nat) ||
      ((192 <=? n)%nat && (n <=? 214)%nat) ||
      ((216 <=? n)%nat && (n <=? 222)%nat))%bool
  then ascii_of_nat (n + 32) else c.

Fixpoint toLowerCase (s : string) : string :=
  match s with
  | EmptyString => EmptyString
  | String c s' => String (lower_char c) (toLowerCase s')
  end.

(** [s.includes(t)]: [t] occurs in [s] as a substring. *)
Fixpoint includes (s t : string) : bool :=
  String.prefix t s ||
  match s with
  | EmptyString => false
  | String _ s' => includes s' t
  end.

(** ** The metadata store: table [files]

    [CREATE TABLE files (id INTEGER PRIMARY KEY AUTOINCREMENT, name, size,
    content_type, s3_key TEXT NOT NULL UNIQUE, starred INTEGER DEFAULT 0,
    trashed INTEGER DEFAULT 0, created_at DATETIME DEFAULT CURRENT_TIMESTAMP)].

    [created_at] holds the text ['YYYY-MM-DD HH:MM:SS'] of a UTC second; it is
    kept as the number of that second, whose order is the order of the texts. *)

Module FileRow.
Record t : Type := mk {
  id : Z;
  name : string;
  size : Z;
  content_type : string;
  s3_key : string;
  starred : Z;
  trashed : Z;
  created_at : Z
}.
End FileRow.
Abbreviation Row := FileRow.t.

(** The table in rowid order, and the AUTOINCREMENT counter kept in
    [sqlite_sequence] (the largest rowid ever handed out). *)
Record Db : Type := mkDb {
  rows : list Row;
  sqlite_sequence : Z
}.

Definition max_rowid : Z := 9223372036854775807.

Definition has_key (key : string) (d : Db) : bool :=
  existsb (fun r => String.eqb (FileRow.s3_key r) key) (rows d).

(** [insertFile.run(name, size, content_type, s3_key)]: [None] when SQLite
    raises (UNIQUE constraint on [s3_key], or no rowid left); otherwise the
    new rowid ([lastInsertRowid]) and the table with the row appended, its
    flags and [created_at] taking their column defaults. *)
Definition insertFile (now : Z) (name : string) (size : Z) (content_type s3_key : string)
    (d : Db) : option (Z * Db) :=
  if has_key s3_key d then None
  else if max_rowid <=? sqlite_sequence d then None
  else
    let rowid := sqlite_sequence d + 1 in
    Some (rowid,
          {| rows := rows d ++ [FileRow.mk rowid name size content_type s3_key 0 0 now];
             sqlite_sequence := rowid |}).

(** [ORDER BY created_at DESC] over the table scan: rows of one second keep
    their rowid order. *)
Fixpoint insert_desc (r : Row) (l : list Row) : list Row :=
  match l with
  | [] => [r]
  | y :: l' =>
      if FileRow.created_at y <=? FileRow.created_at r then r :: l else y :: insert_desc r l'
  end.

Definition order_by_created_at_desc (l : list Row) : list Row :=
  fold_right insert_desc [] l.

(** [selectFiles.all(limit, offset)]: [LIMIT ? OFFSET ?] as SQLite defines
    them: a negative offset counts as 0, a negative limit is no limit. *)
Definition selectFiles (limit offset : Z) (d : Db) : list Row :=
  let sorted := order_by_created_at_desc (rows d) in
  let rest := skipn (Z.to_nat offset) sorted in
  if limit <? 0 then rest else firstn (Z.to_nat limit) rest.

(** [countFiles.get().count] *)
Definition countFiles (d : Db) : Z := Z.of_nat (length (rows d)).

Definition id_is (i : JSNum) (r : Row) : bool :=
  match i with
  | NaN => false
  | Num z => FileRow.id r =? z
  end.

(** [getFileById.get(id)]; [NaN] is bound as NULL, which equals no id. *)
Definition getFileById (i : JSNum) (d : Db) : option Row :=
  find (id_is i) (rows d).

(** [deleteFile.run(id)] *)
Definition deleteFile (i : JSNum) (d : Db) : Db :=
  {| rows := List.filter (fun r => negb (id_is i r)) (rows d);
     sqlite_sequence := sqlite_sequence d |}.

Definition set_starred (v : Z) (r : Row) : Row :=
  FileRow.mk (FileRow.id r) (FileRow.name r) (FileRow.size r) (FileRow.content_type r) (FileRow.s3_key r)
         v (FileRow.trashed r) (FileRow.created_at r).

Definition set_trashed (v : Z) (r : Row) : Row :=
  FileRow.mk (FileRow.id r) (FileRow.name r) (FileRow.size r) (FileRow.content_type r) (FileRow.s3_key r)
         (FileRow.starred r) v (FileRow.created_at r).

(** [updateFileStarred.run(v, id)] *)
Definition updateFileStarred (v : Z) (i : JSNum) (d : Db) : Db :=
  {| rows := map (fun r => if id_is i r then set_starred v r else r) (rows d);
     sqlite_sequence := sqlite_sequence d |}.

(** [updateFileTrashed.run(v, id)] *)
Definition updateFileTrashed (v : Z) (i : JSNum) (d : Db) : Db :=
  {| rows := map (fun r => if id_is i r then set_trashed v r else r) (rows d);
     sqlite_sequence := sqlite_sequence d |}.

(** What SQLite maintains on the table: the primary key and [s3_key] are
    unique, and no rowid exceeds the AUTOINCREMENT counter. *)
Definition wf (d : Db) : Prop :=
  List.NoDup (map FileRow.id (rows d)) /\
  List.NoDup (map FileRow.s3_key (rows d)) /\
  Forall (fun r => FileRow.id r <= sqlite_sequence d) (rows d).

Definition empty_db : Db := {| rows := []; sqlite_sequence := 0 |}.

(** ** The world of a handler: table, bucket, and a log of the writes *)

Record S3Object : Type := mkObject {
  Body : string;
  ContentType : string;
  originalName : string;
  uploadedAt : Z
}.

Inductive Event : Type :=
  | S3Put (key : string)
  | S3PutFailed (key : string)
  | S3Deleted (key : string)
  | S3DeleteFailed (key : string)
  | DbInsert (r : Z) (key : string)
  | DbInsertFailed (key : string)
  | DbUpdate (r : JSNum)
  | DbDelete (r : JSNum).

Record World : Type := mkWorld {
  db : Db;
  bucket : gmap string S3Object;
  log : list Event
}.

Definition empty_world : World := {| db := empty_db; bucket := ∅; log := [] |}.

(** What one request finds outside the process: whether the S3 service
    carries out a command, whether a URL can be signed, and the clocks the
    handler and SQLite read (milliseconds for [Date], seconds for
    [CURRENT_TIMESTAMP]). *)
Record Env : Type := mkEnv {
  s3_up : bool;
  sign_ok : bool;
  Date_now : Z;
  Date_meta : Z;
  CURRENT_TIMESTAMP : Z;
  Date_response : Z
}.

Inductive Exn : Type := SqliteError | S3Error | SignError.

Inductive Result (A : Type) : Type :=
  | Ok (a : A)
  | Throw (e : Exn).
Arguments Ok {A} a.
Arguments Throw {A} e.

(** Code inside a [try] block: it reads and writes the world and may throw. *)
Definition M (A : Type) : Type := World -> Result A * World.

#[global] Instance M_ret : MRet M := fun A a w => (Ok a, w).
#[global] Instance M_bind : MBind M := fun A B k m w =>
  match m w with
  | (Ok a, w') => k a w'
  | (Throw e, w') => (Throw e, w')
  end.

(** [try { m } catch (e) { h e }] with a handler that only builds a response. *)
Definition try_catch {A : Type} (m : M A) (h : Exn -> A) (w : World) : A * World :=
  match m w with
  | (Ok a, w') => (a, w')
  | (Throw e, w') => (h e, w')
  end.

Definition logged (ev : Event) (w : World) : World :=
  {| db := db w; bucket := bucket w; log := log w ++ [ev] |}.

(** [await s3Client.send(new PutObjectCommand(...))] *)
Definition s3_put (e : Env) (key : string) (o : S3Object) : M unit := fun w =>
  if s3_up e
  then (Ok tt, logged (S3Put key) {| db := db w; bucket := <[key := o]> (bucket w); log := log w |})
  else (Throw S3Error, logged (S3PutFailed key) w).

(** [s3Client.send(new DeleteObjectCommand(...))] *)
Definition s3_delete (e : Env) (key : string) : M unit := fun w =>
  if s3_up e
  then (Ok tt, logged (S3Deleted key) {| db := db w; bucket := delete key (bucket w); log := log w |})
  else (Throw S3Error, logged (S3DeleteFailed key) w).

Definition db_insert (e : Env) (name : string) (size : Z) (content_type s3_key : string)
    : M Z := fun w =>
  match insertFile (CURRENT_TIMESTAMP e) name size content_type s3_key (db w) with
  | Some (rowid, d) =>
      (Ok rowid, logged (DbInsert rowid s3_key) {| db := d; bucket := bucket w; log := log w |})
  | None => (Throw SqliteError, logged (DbInsertFailed s3_key) w)
  end.

Definition db_get (i : JSNum) : M (option Row) := fun w =>
  (Ok (getFileById i (db w)), w).

Definition db_write (ev : Event) (f : Db -> Db) : M unit := fun w =>
  (Ok tt, logged ev {| db := f (db w); bucket := bucket w; log := log w |}).

(** ** Responses *)

(** A timestamp as it appears in JSON: the text SQLite stored, or the text
    of [toISOString()] (['YYYY-MM-DDTHH:MM:SS.sssZ']). *)
Inductive DateText : Type :=
  | SqlDateTime (seconds : Z)
  | IsoDateTime (millis : Z).

Module FileJson.
Record t : Type := mk {
  id : Z;
  name : string;
  size : Z;
  content_type : string;
  s3_key : string;
  starred : Z;
  trashed : Z;
  created_at : DateText
}.
End FileJson.
Abbreviation FileJson := FileJson.t.

(** A row as [res.json] writes it. *)
Definition row_json (r : Row) : FileJson :=
  FileJson.mk (FileRow.id r) (FileRow.name r) (FileRow.size r) (FileRow.content_type r) (FileRow.s3_key r)
              (FileRow.starred r) (FileRow.trashed r) (SqlDateTime (FileRow.created_at r)).

Record Pagination : Type := mkPagination {
  currentPage : Z;
  totalItems : Z;
  totalPages : Z;
  itemsPerPage : Z;
  hasNext : bool;
  hasPrev : bool
}.

(** A presigned GET URL for a key, valid for [expiresIn] seconds. *)
Record SignedUrl : Type := mkSignedUrl {
  url_key : string;
  expiresIn : Z
}.

Inductive Json : Type :=
  | JError (error : string)
  | JMessage (message : string)
  | JFiles (files : list Row) (pagination : Pagination)
  | JFile (file : FileJson)
  | JDownload (downloadUrl : SignedUrl) (fileName contentType : string).

Record Response : Type := mkResponse {
  status : Z;
  body : Json
}.

Definition files_of (r : Response) : list Row :=
  match body r with
  | JFiles fs _ => fs
  | _ => []
  end.

Definition pagination_of (r : Response) : option Pagination :=
  match body r with
  | JFiles _ p => Some p
  | _ => None
  end.

(** [selectFiles.all(limit, offset)] inside the [try]; SQLite's refusal of
    a limit or offset that is no 64-bit integer is left out (see the head of
    the file). *)
Definition db_select (limit offset : Z) : M (list Row) := fun w =>
  (Ok (selectFiles limit offset (db w)), w).

Definition db_count : M Z := fun w => (Ok (countFiles (db w)), w).

(** [getSignedUrl(s3Client, getCommand, { expiresIn })]: signing happens in
    the process and touches nothing. *)
Definition getSignedUrl (e : Env) (key : string) (ttl : Z) : M SignedUrl := fun w =>
  if sign_ok e then (Ok {| url_key := key; expiresIn := ttl |}, w)
  else (Throw SignError, w).

(** [Math.ceil(a / b)] for integers [a] and [b <> 0]. *)
Definition ceil_div (a b : Z) : Z := - ((- a) / b).

(** [String(v)] of a query parameter: an absent one is [undefined]. *)
Definition ToString (q : option string) : string :=
  match q with
  | Some s => s
  | None => "undefined"
  end.

(** ** The request handlers *)

(** [GET /api/files?page&limit] *)
Definition get_files (qpage qlimit : option string) : World -> Response * World :=
  try_catch
    (let page := or_default (parseInt (ToString qpage)) 1 in
     let limit := Z.min (or_default (parseInt (ToString qlimit)) 20) 100 in
     let offset := (page - 1) * limit in
     files ← db_select limit offset;
     totalCount ← db_count;
     let totalPages := ceil_div totalCount limit in
     mret {| status := 200;
             body := JFiles files
                       {| currentPage := page;
                          totalItems := totalCount;
                          totalPages := totalPages;
                          itemsPerPage := limit;
                          hasNext := page <? totalPages;
                          hasPrev := 1 <? page |} |})
    (fun _ => {| status := 500; body := JError "Failed to fetch files" |}).

(** [req.file] as multer leaves it, with the bytes of the temporary file. *)
Record UploadedFile : Type := mkUploadedFile {
  originalname : string;
  mimetype : string;
  size : Z;
  content : string
}.

Definition s3Key (now : Z) (originalname : string) : string :=
  "files/" +:+ Number_toString now +:+ "-" +:+ originalname.

(** [POST /api/files] *)
Definition post_files (e : Env) (file : option UploadedFile) : World -> Response * World :=
  match file with
  | None => fun w => ({| status := 400; body := JError "No file uploaded" |}, w)
  | Some f =>
      let key := s3Key (Date_now e) (originalname f) in
      try_catch
        (s3_put e key {| Body := content f;
                         ContentType := mimetype f;
                         originalName := originalname f;
                         uploadedAt := Date_meta e |};;
         result ← db_insert e (originalname f) (size f) (mimetype f) key;
         mret {| status := 201;
                 body := JFile (FileJson.mk result (originalname f) (size f) (mimetype f)
                                            key 0 0 (IsoDateTime (Date_response e))) |})
        (fun _ => {| status := 500; body := JError "Failed to upload file" |})
  end.

Definition not_found : Response :=
  {| status := 404; body := JError "File not found" |}.

(** [GET /api/files/:id/download] *)
Definition get_download (e : Env) (id : string) : World -> Response * World :=
  try_catch
    (let fileId := parseInt id in
     file ← db_get fileId;
     match file with
     | None => mret not_found
     | Some file =>
         signedUrl ← getSignedUrl e (FileRow.s3_key file) 3600;
         mret {| status := 200;
                 body := JDownload signedUrl (FileRow.name file) (FileRow.content_type file) |}
     end)
    (fun _ => {| status := 500; body := JError "Failed to generate download link" |}).

(** [POST /api/files/:id/star] *)
Definition post_star (id : string) : World -> Response * World :=
  try_catch
    (let fileId := parseInt id in
     file ← db_get fileId;
     match file with
     | None => mret not_found
     | Some _ =>
         db_write (DbUpdate fileId) (updateFileStarred 1 fileId);;
         mret {| status := 200; body := JMessage "File starred" |}
     end)
    (fun _ => {| status := 500; body := JError "Failed to star file" |}).

(** [POST /api/files/:id/unstar] *)
Definition post_unstar (id : string) : World -> Response * World :=
  try_catch
    (let fileId := parseInt id in
     file ← db_get fileId;
     match file with
     | None => mret not_found
     | Some _ =>
         db_write (DbUpdate fileId) (updateFileStarred 0 fileId);;
         mret {| status := 200; body := JMessage "File unstarred" |}
     end)
    (fun _ => {| status := 500; body := JError "Failed to unstar file" |}).

(** [POST /api/files/:id/trash] *)
Definition post_trash (id : string) : World -> Response * World :=
  try_catch
    (let fileId := parseInt id in
     file ← db_get fileId;
     match file with
     | None => mret not_found
     | Some _ =>
         db_write (DbUpdate fileId) (updateFileTrashed 1 fileId);;
         mret {| status := 200; body := JMessage "File moved to trash" |}
     end)
    (fun _ => {| status := 500; body := JError "Failed to move file to trash" |}).

(** [POST /api/files/:id/restore] *)
Definition post_restore (id : string) : World -> Response * World :=
  try_catch
    (let fileId := parseInt id in
     file ← db_get fileId;
     match file with
     | None => mret not_found
     | Some _ =>
         db_write (DbUpdate fileId) (updateFileTrashed 0 fileId);;
         mret {| status := 200; body := JMessage "File restored" |}
     end)
    (fun _ => {| status := 500; body := JError "Failed to restore file" |}).

(** [DELETE /api/files/:id]: the row is deleted in the [then] of the S3
    command; its [catch] answers 500. *)
Definition delete_file (e : Env) (id : string) : World -> Response * World :=
  try_catch
    (let fileId := parseInt id in
     file ← db_get fileId;
     match file with
     | None => mret not_found
     | Some file =>
         s3_delete e (FileRow.s3_key file);;
         db_write (DbDelete fileId) (deleteFile fileId);;
         mret {| status := 200; body := JMessage "File deleted permanently" |}
     end)
    (fun _ => {| status := 500; body := JError "Failed to delete file" |}).

(** The four flag routes, and the value each writes. *)
Inductive FlagOp : Type := Star | Unstar | Trash | Restore.

Definition post_flag (op : FlagOp) : string -> World -> Response * World :=
  match op with
  | Star => post_star
  | Unstar => post_unstar
  | Trash => post_trash
  | Restore => post_restore
  end.

Definition flag_target (op : FlagOp) : Z :=
  match op with
  | Star | Trash => 1
  | Unstar | Restore => 0
  end.

Definition flag_of (op : FlagOp) (r : Row) : Z :=
  match op with
  | Star | Unstar => FileRow.starred r
  | Trash | Restore => FileRow.trashed r
  end.

(** The statement a flag route runs on a found record, and its answer. *)
Definition flag_update (op : FlagOp) : JSNum -> Db -> Db :=
  match op with
  | Star | Unstar => updateFileStarred (flag_target op)
  | Trash | Restore => updateFileTrashed (flag_target op)
  end.

Definition flag_message (op : FlagOp) : string :=
  match op with
  | Star => "File starred"
  | Unstar => "File unstarred"
  | Trash => "File moved to trash"
  | Restore => "File restored"
  end.

(** The routes of the API that touch the table. *)
Inductive Request : Type :=
  | GetFiles (page limit : option string)
  | PostFiles (file : option UploadedFile)
  | GetDownload (id : string)
  | PostFlag (op : FlagOp) (id : string)
  | DeleteFile (id : string).

Definition handle (e : Env) (rq : Request) : World -> Response * World :=
  match rq with
  | GetFiles page limit => get_files page limit
  | PostFiles file => post_files e file
  | GetDownload id => get_download e id
  | PostFlag op id => post_flag op id
  | DeleteFile id => delete_file e id
  end.

(** The world after a sequence of requests, served one after the other. *)
Fixpoint run (rqs : list (Env * Request)) (w : World) : World :=
  match rqs with
  | [] => w
  | (e, rq) :: rest => run rest (snd (handle e rq w))
  end.

(** ** The section filter of the client ([filteredFiles]) *)

(** Truthiness of a flag as the list response carries it (0 or 1). *)
Definition truthy (v : Z) : bool := negb (v =? 0).

Definition matchesSearch (file : Row) (searchTerm : string) : bool :=
  includes (toLowerCase (FileRow.name file)) (toLowerCase searchTerm).

Definition filteredFiles (files : list Row) (searchTerm section : string) : list Row :=
  List.filter
    (fun file =>
       let matchesSearch := matchesSearch file searchTerm in
       if String.eqb section "My Drive" then
         negb (truthy (FileRow.trashed file)) && matchesSearch
       else if String.eqb section "Starred" then
         negb (truthy (FileRow.trashed file)) && truthy (FileRow.starred file) && matchesSearch
       else if String.eqb section "Trash" then
         truthy (FileRow.trashed file) && matchesSearch
       else if String.eqb section "Recent" then
         negb (truthy (FileRow.trashed file)) && matchesSearch
       else false)
    files.

(** ** Vocabulary of the statements *)

(** [a] may stand before [b] in a listing: [a] is not older than [b]. *)
Definition newer_first (a b : Row) : Prop := FileRow.created_at b <= FileRow.created_at a.

(** The safe integers of JavaScript ([Number.isSafeInteger]): on them the
    numbers of the model are the numbers of the code. *)
Definition MAX_SAFE_INTEGER : Z := 9007199254740991.

Definition safe_integer (z : Z) : Prop :=
  - MAX_SAFE_INTEGER <= z <= MAX_SAFE_INTEGER.

Definition safe_number (x : JSNum) : Prop :=
  match x with
  | NaN => True
  | Num z => safe_integer z
  end.

(** The page and the limit that the list handler works with. *)
Definition effective_page (q : option string) : Z :=
  or_default (parseInt (ToString q)) 1.

Definition effective_limit (q : option string) : Z :=
  Z.min (or_default (parseInt (ToString q)) 20) 100.

(** The query parameter [?page=n] or [?limit=n]. *)
Definition num_query (n : Z) : option string := Some (Number_toString n).

(** The records that [GET /api/files?page=p&limit=l] answers with. *)
Definition list_page (w : World) (page limit : Z) : list Row :=
  files_of (fst (get_files (num_query page) (num_query limit) w)).

(** Pages 1 to ceil(N / limit), N being the number of rows. *)
Definition all_pages (w : World) (limit : Z) : list (list Row) :=
  map (fun p => list_page w (Z.of_nat p) limit)
      (List.seq 1 (Z.to_nat (ceil_div (countFiles (db w)) limit))).

(** Every row's storage key names an object of the bucket. *)
Definition consistent (w : World) : Prop :=
  forall r, In r (rows (db w)) -> is_Some (bucket w !! FileRow.s3_key r).

(** The record of an id is gone for good: no row has it and the counter is
    past it. *)
Definition purged (i : Z) (d : Db) : Prop :=
  i <= sqlite_sequence d /\ forall r, In r (rows d) -> FileRow.id r <> i.

(** The six routes that take an id, as one family. *)
Inductive IdRoute : Type :=
  | Download (e : Env)
  | Flag (op : FlagOp)
  | Purge (e : Env).

Definition id_route (rt : IdRoute) : string -> World -> Response * World :=
  match rt with
  | Download e => get_download e
  | Flag op => post_flag op
  | Purge e => delete_file e
  end.

(** The object that an upload puts into the bucket. *)
Definition upload_object (e : Env) (f : UploadedFile) : S3Object :=
  {| Body := content f; ContentType := mimetype f;
     originalName := originalname f; uploadedAt := Date_meta e |}.

(** The row that a flag route leaves in place of [r]. *)
Definition with_flag (op : FlagOp) (r : Row) : Row :=
  match op with
  | Star | Unstar => set_starred (flag_target op) r
  | Trash | Restore => set_trashed (flag_target op) r
  end.

(** Two flag routes write the same column. *)
Definition same_column (op1 op2 : FlagOp) : bool :=
  match op1, op2 with
  | (Star | Unstar), (Star | Unstar) => true
  | (Trash | Restore), (Trash | Restore) => true
  | _, _ => false
  end.


(** The MIME type prefixes that the upload filter lets pass. *)
Definition allowed_prefixes : list string :=
  ["image"; "video"; "audio"; "application"; "text"].

(** The route that writes the other value of the same flag. *)
Definition undo (op : FlagOp) : FlagOp :=
  match op with
  | Star => Unstar
  | Unstar => Star
  | Trash => Restore
  | Restore => Trash
  end.


(** ** The upload route: multer in front of the handler, the error handler
    behind it *)

(** [allowedMimes.test(mimetype)] for the pattern
    [/^(image|video|audio|application|text)\//]. *)
Definition allowedMimes (mimetype : string) : bool :=
  String.prefix "image/" mimetype || String.prefix "video/" mimetype ||
  String.prefix "audio/" mimetype || String.prefix "application/" mimetype ||
  String.prefix "text/" mimetype.

(** An error handed to [next]: its [code], when it has one, and its
    [message]. *)
Record RouteError : Type := mkRouteError {
  code : option string;
  message : string
}.

(** [limits.fileSize] *)
Definition fileSize : Z := 100 * 1024 * 1024.

(** [fileFilter]: [None] stands for [cb(null, true)]. *)
Definition fileFilter (file : UploadedFile) : option RouteError :=
  if allowedMimes (mimetype file) then None
  else Some {| code := None; message := "Invalid file type" |}.

(** [upload.single('file')]: the filter sees the part before its bytes are
    read; a part longer than [limits.fileSize] ends in multer's
    [LIMIT_FILE_SIZE] error; a request with no part leaves [req.file]
    undefined.  Whether a part of exactly [limits.fileSize] bytes is turned
    away too is decided by the installed multer, which the repository does
    not pin: [at_limit] is that choice. *)
Definition upload_single (at_limit : bool) (file : option UploadedFile)
    : RouteError + option UploadedFile :=
  match file with
  | None => inr None
  | Some f =>
      match fileFilter f with
      | Some err => inl err
      | None =>
          if (fileSize <? size f) || (at_limit && (size f =? fileSize))
          then inl {| code := Some "LIMIT_FILE_SIZE"; message := "File too large" |}
          else inr (Some f)
      end
  end.

(** The error-handling middleware. *)
Definition error_middleware (error : RouteError) : Response :=
  if match code error with
     | Some c => String.eqb c "LIMIT_FILE_SIZE"
     | None => false
     end
  then {| status := 413; body := JError "File too large" |}
  else if String.eqb (message error) "Invalid file type"
  then {| status := 400; body := JError "Invalid file type" |}
  else {| status := 500; body := JError "Internal server error" |}.

(** [POST /api/files] as a client meets it (the rate limiter left out). *)
Definition post_files_route (at_limit : bool) (e : Env) (file : option UploadedFile)
    (w : World) : Response * World :=
  match upload_single at_limit file with
  | inl err => (error_middleware err, w)
  | inr file' => post_files e file' w
  end.

(** ** The client ([App]): its state and its calls of the API *)

Record App : Type := mkApp {
  files : list Row;
  pagination : option Pagination;
  error : option string
}.

(** axios resolves on a status from 200 to 299 and rejects otherwise. *)
Definition resolves (response : Response) : bool :=
  (200 <=? status response) && (status response <? 300).

Definition with_error (a : App) (msg : string) : App :=
  {| files := files a; pagination := pagination a; error := Some msg |}.

(** [pagination?.currentPage || 1] *)
Definition current_page (a : App) : Z :=
  match pagination a with
  | Some p => if currentPage p =? 0 then 1 else currentPage p
  | None => 1
  end.

(** [fetchFiles(page)]: [GET /files?page=${page}&limit=100] *)
Definition fetchFiles (page : Z) (a : App) (w : World) : App * World :=
  let '(response, w') := get_files (Some (Number_toString page)) (Some "100") w in
  if resolves response
  then ({| files := files_of response;
           pagination := pagination_of response;
           error := None |}, w')
  else (with_error a "Failed to fetch files", w').

(** [uploadFile(file)] *)
Definition uploadFile (at_limit : bool) (e : Env) (file : UploadedFile) (a : App)
    (w : World) : App * World :=
  let '(response, w') := post_files_route at_limit e (Some file) w in
  if resolves response then fetchFiles (current_page a) a w'
  else (with_error a "Failed to upload file", w').

(** [moveToTrash(fileId)] *)
Definition moveToTrash (fileId : Z) (a : App) (w : World) : App * World :=
  let '(response, w') := post_trash (Number_toString fileId) w in
  if resolves response then fetchFiles (current_page a) a w'
  else (with_error a "Failed to move file to Trash", w').

(** [restoreFile(fileId)] *)
Definition restoreFile (fileId : Z) (a : App) (w : World) : App * World :=
  let '(response, w') := post_restore (Number_toString fileId) w in
  if resolves response then fetchFiles (current_page a) a w'
  else (with_error a "Failed to restore file", w').

(** [deletePermanently(fileId)]; [confirmed] is the answer to the dialog. *)
Definition deletePermanently (confirmed : bool) (e : Env) (fileId : Z) (a : App)
    (w : World) : App * World :=
  if confirmed then
    let '(response, w') := delete_file e (Number_toString fileId) w in
    if resolves response then fetchFiles (current_page a) a w'
    else (with_error a "Failed to permanently delete file", w')
  else (a, w).

(** [downloadFile(fileId)]: the URL handed to [window.open], if any. *)
Definition downloadFile (e : Env) (fileId : Z) (a : App) (w : World)
    : App * option SignedUrl * World :=
  let '(response, w') := get_download e (Number_toString fileId) w in
  if resolves response then
    match body response with
    | JDownload url _ _ => (a, Some url, w')
    | _ => (a, None, w')
    end
  else (with_error a "Failed to download file", None, w').

(** [toggleStar(file)] *)
Definition toggleStar (file : Row) (a : App) (w : World) : App * World :=
  let '(response, w') :=
    if truthy (FileRow.starred file)
    then post_unstar (Number_toString (FileRow.id file)) w
    else post_star (Number_toString (FileRow.id file)) w in
  if resolves response then fetchFiles (current_page a) a w'
  else (with_error a "Failed to update star status", w').

(** ** Sample data *)

Definition env_ok : Env :=
  {| s3_up := true; sign_ok := true;
     Date_now := 1700000000123; Date_meta := 1700000000124;
     CURRENT_TIMESTAMP := 1700000000; Date_response := 1700000000130 |}.

Definition env_down : Env :=
  {| s3_up := false; sign_ok := true;
     Date_now := 1700000005000; Date_meta := 1700000005001;
     CURRENT_TIMESTAMP := 1700000005; Date_response := 1700000005002 |}.

Definition file_a : UploadedFile :=
  {| originalname := "a.txt"; mimetype := "text/plain"; size := 10;
     content := "0123456789" |}.

Definition file_b : UploadedFile :=
  {| originalname := "b.png"; mimetype := "image/png"; size := 4;
     content := "PNG!" |}.

(** The world after [a.txt] was uploaded into the empty one. *)
Definition world_a : World := snd (post_files env_ok (Some file_a) empty_world).

(** [n] uploads of [a.txt], one per millisecond. *)
Fixpoint uploads (n : nat) : list (Env * Request) :=
  match n with
  | O => []
  | S k =>
      uploads k ++
      [({| s3_up := true; sign_ok := true;
           Date_now := 1700000000000 + Z.of_nat k;
           Date_meta := 1700000000000 + Z.of_nat k;
           CURRENT_TIMESTAMP := 1700000000;
           Date_response := 1700000000000 + Z.of_nat k |},
        PostFiles (Some file_a))]
  end.

(** A later request, with every service up. *)
Definition env_later : Env :=
  {| s3_up := true; sign_ok := true;
     Date_now := 1700000009000; Date_meta := 1700000009001;
     CURRENT_TIMESTAMP := 1700000009; Date_response := 1700000009002 |}.

(** Another file of the name [a.txt]. *)
Definition file_a2 : UploadedFile :=
  {| originalname := "a.txt"; mimetype := "text/html"; size := 3;
     content := "<p>" |}.

(** Uploads that multer turns away. *)
Definition file_font : UploadedFile :=
  {| originalname := "f.woff"; mimetype := "font/woff"; size := 4; content := "wOFF" |}.

Definition file_huge : UploadedFile :=
  {| originalname := "v.mp4"; mimetype := "video/mp4"; size := 104857601; content := "" |}.

(** A trashed row, as the list response hands it to the client. *)
Definition trashed_row : Row :=
  FileRow.mk 1 "a.txt" 10 "text/plain" "files/1700000000123-a.txt" 0 1 1700000000.

(** * Properties *)

#[local] Arguments String.append !s1 s2 : simpl nomatch.

(** ** Numbers and their decimal text *)

Lemma decimal_prefix_app (d : Decimal.uint) (rest : string) :
  decimal_prefix rest = Decimal.Nil ->
  decimal_prefix (NilEmpty.string_of_uint d +:+ rest) = d.
Proof.
  intros Hrest. induction d; simpl; congruence.
Qed.

Lemma decimal_prefix_text (d : Decimal.uint) :
  decimal_prefix (NilEmpty.string_of_uint d) = d.
Proof.
  induction d; simpl; congruence.
Qed.

Lemma parse_digits_text (d : Decimal.uint) :
  d <> Decimal.Nil ->
  parse_digits (NilEmpty.string_of_uint d) = Some (Z.of_N (N.of_uint d)).
Proof.
  intros Hd. unfold parse_digits.
  assert (Hp := decimal_prefix_text d).
  destruct d as [|d'|d'|d'|d'|d'|d'|d'|d'|d'|d']; try congruence;
    try (cbn [NilEmpty.string_of_uint] in *; rewrite Hp; reflexivity).
  cbn [NilEmpty.string_of_uint] in *.
  destruct d'; cbn [NilEmpty.string_of_uint] in *; rewrite Hp; reflexivity.
Qed.

Lemma text_no_space_or_sign (d : Decimal.uint) :
  d <> Decimal.Nil ->
  exists c s, NilEmpty.string_of_uint d = String c s /\
              is_white_space c = false /\ c <> "-"%char /\ c <> "+"%char.
Proof.
  intros Hd.
  destruct d; try congruence; simpl; eexists _, _;
    (split; [reflexivity | repeat split; discriminate]).
Qed.

Lemma N_to_uint_nonnil (n : N) : N.to_uint n <> Decimal.Nil.
Proof.
  destruct n as [|p]; simpl; [discriminate | apply DecimalPos.Unsigned.to_uint_nonnil].
Qed.

(** Reading back the decimal text of a non-negative integer gives it. *)
Lemma parseInt_Number_toString (n : Z) :
  0 <= n -> parseInt (Number_toString n) = Num n.
Proof.
  intros Hn. unfold Number_toString.
  destruct (Z.ltb_spec n 0) as [|_]; [lia|].
  set (d := N.to_uint (Z.to_N n)).
  assert (Hd : d <> Decimal.Nil) by apply N_to_uint_nonnil.
  destruct (text_no_space_or_sign d Hd) as (c & s & Hs & Hw & Hm & Hp).
  unfold parseInt. rewrite Hs. cbn [trim_start]. rewrite Hw.
  assert (Hsign :
    match String c s with
    | String "-"%char r => (-1, r)
    | String "+"%char r => (1, r)
    | _ => (1, String c s)
    end = (1, String c s)).
  { destruct c as [[] [] [] [] [] [] [] []]; try reflexivity; congruence. }
  rewrite Hsign, <- Hs, (parse_digits_text d Hd).
  unfold d. rewrite DecimalN.Unsigned.of_to. f_equal. lia.
Qed.

(** The storage key determines the millisecond and the name it was built
    from. *)
Lemma s3Key_inj (t t' : Z) (n n' : string) :
  0 <= t -> 0 <= t' -> s3Key t n = s3Key t' n' -> t = t' /\ n = n'.
Proof.
  intros Ht Ht' H. unfold s3Key, Number_toString in H.
  destruct (Z.ltb_spec t 0) as [|_]; [lia|].
  destruct (Z.ltb_spec t' 0) as [|_]; [lia|].
  simpl in H.
  injection H as H.
  assert (Hd : N.to_uint (Z.to_N t) = N.to_uint (Z.to_N t')).
  { apply (f_equal decimal_prefix) in H.
    rewrite !decimal_prefix_app in H by reflexivity. exact H. }
  rewrite Hd in H.
  apply DecimalN.Unsigned.to_uint_inj in Hd.
  split; [lia|].
  revert H. generalize (NilEmpty.string_of_uint (N.to_uint (Z.to_N t'))) as p.
  induction p as [|c p IH]; simpl; intros H; [congruence|].
  injection H as H. auto.
Qed.

(** ** Ordering and paging of the listing *)

Lemma insert_desc_perm (r : Row) (l : list Row) :
  Permutation (insert_desc r l) (r :: l).
Proof.
  induction l as [|y l IH]; simpl; [reflexivity|].
  destruct (FileRow.created_at y <=? FileRow.created_at r); [reflexivity|].
  rewrite IH. apply perm_swap.
Qed.

Lemma order_by_perm (l : list Row) :
  Permutation (order_by_created_at_desc l) l.
Proof.
  induction l as [|r l IH]; simpl; [reflexivity|].
  rewrite insert_desc_perm. now apply perm_skip.
Qed.

Lemma insert_desc_sorted (r : Row) (l : list Row) :
  StronglySorted newer_first l -> StronglySorted newer_first (insert_desc r l).
Proof.
  induction 1 as [|y l Hl IH Hy]; simpl.
  - repeat constructor.
  - destruct (Z.leb_spec (FileRow.created_at y) (FileRow.created_at r)) as [Hle|Hgt].
    + constructor; [now constructor|].
      constructor; [exact Hle|].
      eapply List.Forall_impl; [|exact Hy].
      unfold newer_first. intros z Hz. lia.
    + constructor; [exact IH|].
      apply List.Forall_forall. intros z Hz.
      apply (Permutation_in _ (insert_desc_perm r l)) in Hz.
      destruct Hz as [<-|Hz].
      * unfold newer_first. lia.
      * rewrite List.Forall_forall in Hy. auto.
Qed.

Lemma order_by_sorted (l : list Row) :
  StronglySorted newer_first (order_by_created_at_desc l).
Proof.
  induction l as [|r l IH]; simpl; [constructor|].
  now apply insert_desc_sorted.
Qed.

Section Slices.
Context {A : Type}.
Variable R : A -> A -> Prop.

Lemma Forall_firstn (P : A -> Prop) (n : nat) (l : list A) :
  Forall P l -> Forall P (firstn n l).
Proof.
  intros H. revert n. induction H; intros [|n]; simpl; constructor; auto.
Qed.

Lemma sorted_firstn (n : nat) (l : list A) :
  StronglySorted R l -> StronglySorted R (firstn n l).
Proof.
  intros H. revert n. induction H; intros [|n]; simpl; constructor; auto.
  now apply Forall_firstn.
Qed.

Lemma sorted_skipn (n : nat) (l : list A) :
  StronglySorted R l -> StronglySorted R (skipn n l).
Proof.
  intros H. revert n. induction H; intros [|n]; simpl; auto; constructor; auto.
Qed.

Lemma firstn_plus (a b : nat) (l : list A) :
  firstn (a + b) l = firstn a l ++ firstn b (skipn a l).
Proof.
  revert l. induction a as [|a IH]; intros l; simpl; [reflexivity|].
  destruct l; simpl; [now rewrite firstn_nil | now rewrite IH].
Qed.

(** Cutting a list into [k] consecutive slices of [n] and gluing them. *)
Lemma slices_concat (n k : nat) (l : list A) :
  concat (map (fun i => firstn n (skipn (i * n) l)) (List.seq 0 k)) = firstn (k * n) l.
Proof.
  induction k as [|k IH]; [reflexivity|].
  rewrite seq_S, map_app, concat_app, IH. simpl.
  rewrite app_nil_r, (Nat.add_comm n), firstn_plus. reflexivity.
Qed.

Lemma in_slice (n : nat) (x : A) (l : list A) :
  (0 < n)%nat -> In x l ->
  exists i, (i < length l)%nat /\ In x (firstn n (skipn (i * n) l)).
Proof.
  intros Hn Hx. apply In_nth_error in Hx as [k Hk].
  exists (k / n)%nat.
  assert (Hlt : (k < length l)%nat) by (apply nth_error_Some; congruence).
  split; [pose proof (Nat.div_mod_eq k n); nia|].
  apply nth_error_In with (n := (k mod n)%nat).
  rewrite nth_error_firstn, nth_error_skipn.
  assert (Hm : (k mod n < n)%nat) by (apply Nat.mod_upper_bound; lia).
  apply Nat.ltb_lt in Hm. rewrite Hm, <- Hk. f_equal.
  rewrite (Nat.div_mod_eq k n) at 3. lia.
Qed.
End Slices.

(** The list handler, evaluated: it never fails and leaves the world as it
    is. *)
Lemma get_files_eval (qpage qlimit : option string) (w : World) :
  get_files qpage qlimit w =
  (let page := effective_page qpage in
   let limit := effective_limit qlimit in
   let total := countFiles (db w) in
   {| status := 200;
      body := JFiles (selectFiles limit ((page - 1) * limit) (db w))
                {| currentPage := page;
                   totalItems := total;
                   totalPages := ceil_div total limit;
                   itemsPerPage := limit;
                   hasNext := page <? ceil_div total limit;
                   hasPrev := 1 <? page |} |}, w).
Proof. reflexivity. Qed.

Lemma effective_limit_bounds (q : option string) :
  effective_limit q <= 100 /\ effective_limit q <> 0.
Proof.
  unfold effective_limit, or_default.
  destruct (parseInt (ToString q)) as [|z]; [lia|].
  destruct (Z.eqb_spec z 0); lia.
Qed.

Lemma effective_limit_absent : effective_limit None = 20.
Proof. reflexivity. Qed.

Lemma effective_page_absent : effective_page None = 1.
Proof. reflexivity. Qed.

Lemma effective_limit_num (l : Z) :
  1 <= l <= 100 -> effective_limit (num_query l) = l.
Proof.
  intros Hl. unfold effective_limit, num_query, ToString.
  rewrite parseInt_Number_toString by lia. unfold or_default.
  destruct (Z.eqb_spec l 0); lia.
Qed.

Lemma effective_page_num (p : Z) :
  1 <= p -> effective_page (num_query p) = p.
Proof.
  intros Hp. unfold effective_page, num_query, ToString.
  rewrite parseInt_Number_toString by lia. unfold or_default.
  destruct (Z.eqb_spec p 0); lia.
Qed.

(** [ceil_div a b] is the least [k] with [a <= k * b], for positive [b]. *)
Lemma ceil_div_spec (a b : Z) :
  0 < b -> a <= ceil_div a b * b /\ forall k, a <= k * b -> ceil_div a b <= k.
Proof.
  intros Hb. unfold ceil_div. split.
  - pose proof (Z.mul_div_le (- a) b Hb). lia.
  - intros k Hk.
    assert (- k <= (- a) / b); [|lia].
    apply Z.div_le_lower_bound; lia.
Qed.

Lemma ceil_div_nonneg (a b : Z) : 0 <= a -> 0 < b -> 0 <= ceil_div a b.
Proof.
  intros Ha Hb. unfold ceil_div.
  assert ((- a) / b <= 0); [|lia].
  apply Z.div_le_upper_bound; lia.
Qed.

Lemma selectFiles_length (limit offset : Z) (d : Db) :
  0 <= limit -> (length (selectFiles limit offset d) <= Z.to_nat limit)%nat.
Proof.
  intros Hl. unfold selectFiles.
  destruct (Z.ltb_spec limit 0); [lia|]. apply firstn_le_length.
Qed.

Lemma selectFiles_past_end (limit offset : Z) (d : Db) :
  countFiles d <= offset -> selectFiles limit offset d = [].
Proof.
  intros Ho. unfold selectFiles, countFiles in *.
  rewrite skipn_all2.
  - destruct (limit <? 0); [reflexivity | apply firstn_nil].
  - rewrite (Permutation_length (order_by_perm (rows d))). lia.
Qed.

Lemma selectFiles_sorted (limit offset : Z) (d : Db) :
  StronglySorted newer_first (selectFiles limit offset d).
Proof.
  unfold selectFiles.
  destruct (limit <? 0); [|apply sorted_firstn]; apply sorted_skipn, order_by_sorted.
Qed.

Lemma list_page_eq (w : World) (p l : Z) :
  1 <= p -> 1 <= l <= 100 ->
  list_page w p l =
  firstn (Z.to_nat l)
         (skipn (Z.to_nat (p - 1) * Z.to_nat l) (order_by_created_at_desc (rows (db w)))).
Proof.
  intros Hp Hl. unfold list_page. rewrite get_files_eval. cbn [fst files_of body].
  rewrite effective_limit_num, effective_page_num by lia.
  unfold selectFiles. destruct (Z.ltb_spec l 0); [lia|].
  rewrite Z2Nat.inj_mul by lia. reflexivity.
Qed.

(** Gluing pages 1 to ceil(N / limit) gives the whole ordered table. *)
Lemma all_pages_concat (w : World) (l : Z) :
  1 <= l <= 100 ->
  concat (all_pages w l) = order_by_created_at_desc (rows (db w)).
Proof.
  intros Hl. unfold all_pages.
  set (k := Z.to_nat (ceil_div (countFiles (db w)) l)).
  rewrite <- seq_shift, map_map.
  rewrite (map_ext_in _ (fun i => firstn (Z.to_nat l)
             (skipn (i * Z.to_nat l) (order_by_created_at_desc (rows (db w)))))).
  - rewrite slices_concat. apply firstn_all2.
    rewrite (Permutation_length (order_by_perm _)).
    destruct (ceil_div_spec (countFiles (db w)) l) as [Hc _]; [lia|].
    pose proof (ceil_div_nonneg (countFiles (db w)) l).
    unfold countFiles in *. subst k. nia.
  - intros i _. rewrite list_page_eq by lia. do 3 f_equal. lia.
Qed.

(** ** The table: lookups and what SQLite maintains *)

Lemma getFileById_NaN (d : Db) : getFileById NaN d = None.
Proof.
  unfold getFileById. induction (rows d); simpl; auto.
Qed.

Lemma getFileById_Some (i : JSNum) (d : Db) (r : Row) :
  getFileById i d = Some r -> In r (rows d) /\ i = Num (FileRow.id r).
Proof.
  unfold getFileById. intros H. apply find_some in H as [Hin Hid].
  split; [exact Hin|].
  destruct i as [|z]; simpl in Hid; [discriminate|].
  apply Z.eqb_eq in Hid. now subst.
Qed.

Lemma getFileById_None (i : JSNum) (d : Db) :
  getFileById i d = None <-> forall r, In r (rows d) -> Num (FileRow.id r) <> i.
Proof.
  unfold getFileById. split.
  - intros H r Hin Heq. apply (find_none _ _ H) in Hin.
    subst i. simpl in Hin. rewrite Z.eqb_refl in Hin. discriminate.
  - intros H. induction (rows d) as [|r l IH]; simpl; [reflexivity|].
    destruct (id_is i r) eqn:Hid.
    + destruct i as [|z]; simpl in Hid; [discriminate|].
      apply Z.eqb_eq in Hid. exfalso. apply (H r); [now left | now subst].
    + apply IH. intros r' Hr'. apply H. now right.
Qed.

Lemma getFileById_is_Some (i : JSNum) (d : Db) (r : Row) :
  In r (rows d) -> i = Num (FileRow.id r) -> exists r', getFileById i d = Some r'.
Proof.
  intros Hin Hi. destruct (getFileById i d) as [r'|] eqn:H; [eauto|].
  rewrite getFileById_None in H. exfalso. apply (H r Hin). now subst.
Qed.

Lemma in_map_NoDup_inj {A B : Type} (f : A -> B) (l : list A) (x y : A) :
  List.NoDup (map f l) -> In x l -> In y l -> f x = f y -> x = y.
Proof.
  induction l as [|a l IH]; simpl; [tauto|].
  intros Hnd Hx Hy Hf. inversion Hnd as [|? ? Hnotin Hnd']; subst.
  destruct Hx as [->|Hx], Hy as [->|Hy]; auto.
  - exfalso. apply Hnotin. rewrite Hf. now apply in_map.
  - exfalso. apply Hnotin. rewrite <- Hf. now apply in_map.
Qed.

Lemma getFileById_unique (d : Db) (r : Row) :
  wf d -> In r (rows d) -> getFileById (Num (FileRow.id r)) d = Some r.
Proof.
  intros (Hid & _ & _) Hin.
  destruct (getFileById_is_Some (Num (FileRow.id r)) d r Hin eq_refl) as [r' Hr'].
  rewrite Hr'. f_equal.
  apply getFileById_Some in Hr' as [Hin' Heq].
  apply (in_map_NoDup_inj FileRow.id (rows d)); auto. congruence.
Qed.

Lemma NoDup_map_filter {A B : Type} (f : A -> B) (p : A -> bool) (l : list A) :
  List.NoDup (map f l) -> List.NoDup (map f (List.filter p l)).
Proof.
  induction l as [|a l IH]; simpl; [auto|].
  intros Hnd. inversion Hnd as [|? ? Hnotin Hnd']; subst.
  destruct (p a); simpl; auto.
  constructor; auto.
  intros Hin. apply Hnotin.
  apply in_map_iff in Hin as (x & Hx & Hin). apply filter_In in Hin as [Hin _].
  rewrite <- Hx. now apply in_map.
Qed.

Lemma has_key_false (key : string) (d : Db) :
  has_key key d = false <-> ~ In key (map FileRow.s3_key (rows d)).
Proof.
  unfold has_key. induction (rows d) as [|r l IH]; simpl; [tauto|].
  rewrite orb_false_iff, IH.
  destruct (String.eqb_spec (FileRow.s3_key r) key); intuition congruence.
Qed.

Lemma wf_empty : wf empty_db.
Proof.
  repeat split; simpl; constructor.
Qed.

Lemma insertFile_Some (now : Z) (n : string) (sz : Z) (ct key : string) (d d' : Db) (i : Z) :
  insertFile now n sz ct key d = Some (i, d') ->
  has_key key d = false /\ i = sqlite_sequence d + 1 /\
  d' = {| rows := rows d ++ [FileRow.mk i n sz ct key 0 0 now]; sqlite_sequence := i |}.
Proof.
  unfold insertFile. destruct (has_key key d); [discriminate|].
  destruct (max_rowid <=? sqlite_sequence d); [discriminate|].
  intros [= <- <-]. auto.
Qed.

Lemma NoDup_map_snoc {A B : Type} (f : A -> B) (l : list A) (a : A) :
  List.NoDup (map f l) -> ~ In (f a) (map f l) -> List.NoDup (map f (l ++ [a])).
Proof.
  intros Hnd Hnotin. rewrite map_app. simpl.
  apply NoDup_ListNoDup. apply NoDup_app. repeat split.
  - now apply NoDup_ListNoDup.
  - intros x Hx Hx'. apply list_elem_of_In in Hx.
    apply list_elem_of_In in Hx'. destruct Hx' as [<-|[]]. auto.
  - apply NoDup_ListNoDup. repeat constructor. auto.
Qed.

Lemma insertFile_wf (now : Z) (n : string) (sz : Z) (ct key : string) (d d' : Db) (i : Z) :
  wf d -> insertFile now n sz ct key d = Some (i, d') -> wf d'.
Proof.
  intros (Hid & Hkey & Hseq) H.
  apply insertFile_Some in H as (Hk & -> & ->).
  rewrite has_key_false in Hk.
  repeat split; simpl.
  - apply NoDup_map_snoc; auto. simpl. intros Hin.
    apply in_map_iff in Hin as (r & Hr & Hin).
    rewrite List.Forall_forall in Hseq. specialize (Hseq r Hin). lia.
  - apply NoDup_map_snoc; auto.
  - apply Forall_app. split.
    + eapply List.Forall_impl; [|exact Hseq]. simpl. intros; lia.
    + repeat constructor. simpl. lia.
Qed.

Lemma deleteFile_wf (i : JSNum) (d : Db) : wf d -> wf (deleteFile i d).
Proof.
  intros (Hid & Hkey & Hseq). repeat split; simpl.
  - now apply NoDup_map_filter.
  - now apply NoDup_map_filter.
  - rewrite List.Forall_forall in *. intros r Hr.
    apply filter_In in Hr as [Hr _]. auto.
Qed.

Lemma flag_update_rows (op : FlagOp) (i : JSNum) (d : Db) :
  map FileRow.id (rows (flag_update op i d)) = map FileRow.id (rows d) /\
  map FileRow.s3_key (rows (flag_update op i d)) = map FileRow.s3_key (rows d) /\
  map FileRow.created_at (rows (flag_update op i d)) = map FileRow.created_at (rows d) /\
  sqlite_sequence (flag_update op i d) = sqlite_sequence d.
Proof.
  destruct op; simpl; rewrite !map_map; repeat split;
    apply map_ext; intros r; destruct (id_is i r); reflexivity.
Qed.

Lemma flag_update_wf (op : FlagOp) (i : JSNum) (d : Db) :
  wf d -> wf (flag_update op i d).
Proof.
  intros (Hid & Hkey & Hseq).
  destruct (flag_update_rows op i d) as (Ei & Ek & _ & Es).
  unfold wf. rewrite Ei, Ek, Es. repeat split; auto.
  apply List.Forall_forall. intros r Hr.
  assert (Hin : In (FileRow.id r) (map FileRow.id (rows (flag_update op i d)))) by now apply in_map.
  rewrite Ei in Hin. apply in_map_iff in Hin as (r0 & <- & Hr0).
  rewrite List.Forall_forall in Hseq. auto.
Qed.

(** ** The handlers, evaluated *)

Lemma id_route_not_found (rt : IdRoute) (s : string) (w : World) :
  getFileById (parseInt s) (db w) = None -> id_route rt s w = (not_found, w).
Proof.
  intros H. destruct rt as [e|[]|e]; simpl;
    unfold get_download, post_star, post_unstar, post_trash, post_restore, delete_file,
      try_catch, mbind, M_bind, db_get; rewrite H; reflexivity.
Qed.

Lemma post_flag_found (op : FlagOp) (s : string) (w : World) (r : Row) :
  getFileById (parseInt s) (db w) = Some r ->
  post_flag op s w =
  ({| status := 200; body := JMessage (flag_message op) |},
   {| db := flag_update op (parseInt s) (db w);
      bucket := bucket w;
      log := log w ++ [DbUpdate (parseInt s)] |}).
Proof.
  intros H. destruct op; simpl;
    unfold post_star, post_unstar, post_trash, post_restore,
      try_catch, mbind, M_bind, db_get; rewrite H; reflexivity.
Qed.

Lemma get_download_found (e : Env) (s : string) (w : World) (r : Row) :
  getFileById (parseInt s) (db w) = Some r ->
  get_download e s w =
  (if sign_ok e
   then {| status := 200;
           body := JDownload {| url_key := FileRow.s3_key r; expiresIn := 3600 |}
                             (FileRow.name r) (FileRow.content_type r) |}
   else {| status := 500; body := JError "Failed to generate download link" |}, w).
Proof.
  intros H. unfold get_download, try_catch, mbind, M_bind, db_get, getSignedUrl.
  rewrite H. destruct (sign_ok e); reflexivity.
Qed.

Lemma delete_file_found (e : Env) (s : string) (w : World) (r : Row) :
  getFileById (parseInt s) (db w) = Some r ->
  delete_file e s w =
  if s3_up e
  then ({| status := 200; body := JMessage "File deleted permanently" |},
        {| db := deleteFile (parseInt s) (db w);
           bucket := delete (FileRow.s3_key r) (bucket w);
           log := (log w ++ [S3Deleted (FileRow.s3_key r)]) ++ [DbDelete (parseInt s)] |})
  else ({| status := 500; body := JError "Failed to delete file" |},
        {| db := db w;
           bucket := bucket w;
           log := log w ++ [S3DeleteFailed (FileRow.s3_key r)] |}).
Proof.
  intros H. unfold delete_file, try_catch, mbind, M_bind, db_get, s3_delete.
  rewrite H. destruct (s3_up e); reflexivity.
Qed.

Lemma post_files_eval (e : Env) (f : UploadedFile) (w : World) :
  let key := s3Key (Date_now e) (originalname f) in
  post_files e (Some f) w =
  if s3_up e
  then
    match insertFile (CURRENT_TIMESTAMP e) (originalname f) (size f) (mimetype f) key (db w) with
    | Some (rowid, d) =>
        ({| status := 201;
            body := JFile (FileJson.mk rowid (originalname f) (size f) (mimetype f) key
                                       0 0 (IsoDateTime (Date_response e))) |},
         {| db := d;
            bucket := <[key := upload_object e f]> (bucket w);
            log := (log w ++ [S3Put key]) ++ [DbInsert rowid key] |})
    | None =>
        ({| status := 500; body := JError "Failed to upload file" |},
         {| db := db w;
            bucket := <[key := upload_object e f]> (bucket w);
            log := (log w ++ [S3Put key]) ++ [DbInsertFailed key] |})
    end
  else
    ({| status := 500; body := JError "Failed to upload file" |},
     {| db := db w; bucket := bucket w; log := log w ++ [S3PutFailed key] |}).
Proof.
  simpl. unfold post_files, try_catch, mbind, M_bind, s3_put, db_insert.
  destruct (s3_up e); [|reflexivity]. simpl.
  destruct (insertFile _ _ _ _ _ (db w)) as [[rowid d]|]; reflexivity.
Qed.

(** ** What every request preserves *)

(** Rewrites a route whose id matches no row into its 404 answer. *)
Ltac route_not_found rt H :=
  let Hnf := fresh "Hnf" in
  pose proof (id_route_not_found rt _ _ H) as Hnf;
  cbn [id_route] in Hnf; rewrite Hnf; clear Hnf.

(** The table after a request: untouched, one row inserted, one flag
    statement run, or one delete statement run. *)
Lemma handle_db (e : Env) (rq : Request) (w : World) :
  let d' := db (snd (handle e rq w)) in
  d' = db w \/
  (exists now n sz ct key i, insertFile now n sz ct key (db w) = Some (i, d')) \/
  (exists op i, d' = flag_update op i (db w)) \/
  (exists i, d' = deleteFile i (db w)).
Proof.
  destruct rq as [qp ql|[f|]|s|op s|s]; cbn [handle].
  - left. now rewrite get_files_eval.
  - rewrite post_files_eval.
    destruct (s3_up e); [|now left].
    destruct (insertFile _ _ _ _ _ (db w)) as [[rowid d]|] eqn:Hins; [|now left].
    right; left. simpl. eauto 10.
  - now left.
  - left. destruct (getFileById (parseInt s) (db w)) as [r|] eqn:H.
    + now rewrite (get_download_found e s w r H).
    + now route_not_found (Download e) H.
  - destruct (getFileById (parseInt s) (db w)) as [r|] eqn:H.
    + rewrite (post_flag_found op s w r H). right; right; left. simpl. eauto.
    + route_not_found (Flag op) H. now left.
  - destruct (getFileById (parseInt s) (db w)) as [r|] eqn:H.
    + rewrite (delete_file_found e s w r H).
      destruct (s3_up e); [right; right; right; simpl; eauto | now left].
    + route_not_found (Purge e) H. now left.
Qed.

Lemma handle_wf (e : Env) (rq : Request) (w : World) :
  wf (db w) -> wf (db (snd (handle e rq w))).
Proof.
  intros Hwf.
  destruct (handle_db e rq w) as [->|[(now & n & sz & ct & key & i & H)|[(op & i & ->)|(i & ->)]]].
  - exact Hwf.
  - eapply insertFile_wf; eauto.
  - now apply flag_update_wf.
  - now apply deleteFile_wf.
Qed.

Lemma run_wf (rqs : list (Env * Request)) (w : World) :
  wf (db w) -> wf (db (run rqs w)).
Proof.
  revert w. induction rqs as [|[e rq] rqs IH]; intros w Hwf; simpl; [exact Hwf|].
  apply IH. now apply handle_wf.
Qed.

Lemma handle_purged (i : Z) (e : Env) (rq : Request) (w : World) :
  purged i (db w) -> purged i (db (snd (handle e rq w))).
Proof.
  intros [Hseq Hno].
  destruct (handle_db e rq w) as [->|[(now & n & sz & ct & key & j & H)|[(op & j & ->)|(j & ->)]]].
  - now split.
  - apply insertFile_Some in H as (_ & -> & ->). split; simpl; [lia|].
    intros r Hr. apply in_app_or in Hr as [Hr|[<-|[]]]; [auto | simpl; lia].
  - destruct (flag_update_rows op j (db w)) as (Ei & _ & _ & Es).
    split; [now rewrite Es|].
    intros r Hr Heq.
    assert (Hin : In (FileRow.id r) (map FileRow.id (rows (flag_update op j (db w))))) by now apply in_map.
    rewrite Ei in Hin. apply in_map_iff in Hin as (r0 & Hr0 & Hin0).
    apply (Hno r0 Hin0). congruence.
  - split; [exact Hseq|]. simpl. intros r Hr.
    apply filter_In in Hr as [Hr _]. auto.
Qed.

Lemma run_purged (i : Z) (rqs : list (Env * Request)) (w : World) :
  purged i (db w) -> purged i (db (run rqs w)).
Proof.
  revert w. induction rqs as [|[e rq] rqs IH]; intros w H; simpl; [exact H|].
  apply IH. now apply handle_purged.
Qed.

Lemma purged_getFileById (i : Z) (d : Db) :
  purged i d -> getFileById (Num i) d = None.
Proof.
  intros [_ Hno]. apply getFileById_None. intros r Hr [= Heq]. now apply (Hno r).
Qed.

Lemma deleteFile_purged (r : Row) (d : Db) :
  wf d -> In r (rows d) -> purged (FileRow.id r) (deleteFile (Num (FileRow.id r)) d).
Proof.
  intros (_ & _ & Hseq) Hin. split; simpl.
  - rewrite List.Forall_forall in Hseq. auto.
  - intros r' Hr'. apply filter_In in Hr' as [_ Hr'].
    simpl in Hr'. destruct (Z.eqb_spec (FileRow.id r') (FileRow.id r)); [discriminate | auto].
Qed.


Lemma handle_consistent (e : Env) (rq : Request) (w : World) :
  wf (db w) -> consistent w -> consistent (snd (handle e rq w)).
Proof.
  intros Hwf Hc.
  destruct rq as [qp ql|[f|]|s|op s|s]; cbn [handle].
  - now rewrite get_files_eval.
  - rewrite post_files_eval.
    destruct (s3_up e); [|exact Hc].
    destruct (insertFile _ _ _ _ _ (db w)) as [[rowid d]|] eqn:Hins.
    + apply insertFile_Some in Hins as (_ & -> & ->).
      intros r Hr. simpl in *. rewrite lookup_insert_is_Some.
      apply in_app_or in Hr as [Hr|[<-|[]]]; [|now left].
      destruct (decide (s3Key (Date_now e) (originalname f) = FileRow.s3_key r)); [now left|].
      right. split; [assumption | now apply Hc].
    + intros r Hr. simpl in *. rewrite lookup_insert_is_Some.
      destruct (decide (s3Key (Date_now e) (originalname f) = FileRow.s3_key r)); [now left|].
      right. split; [assumption | now apply Hc].
  - exact Hc.
  - destruct (getFileById (parseInt s) (db w)) as [r|] eqn:H.
    + now rewrite (get_download_found e s w r H).
    + now route_not_found (Download e) H.
  - destruct (getFileById (parseInt s) (db w)) as [r|] eqn:H.
    + rewrite (post_flag_found op s w r H). intros r' Hr'. simpl in *.
      destruct (flag_update_rows op (parseInt s) (db w)) as (_ & Ek & _).
      assert (Hin : In (FileRow.s3_key r') (map FileRow.s3_key (rows (flag_update op (parseInt s) (db w)))))
        by now apply in_map.
      rewrite Ek in Hin. apply in_map_iff in Hin as (r0 & <- & Hr0). now apply Hc.
    + now route_not_found (Flag op) H.
  - destruct (getFileById (parseInt s) (db w)) as [r|] eqn:H.
    + rewrite (delete_file_found e s w r H).
      destruct (s3_up e); [|exact Hc].
      apply getFileById_Some in H as [Hin Hs]. rewrite Hs.
      intros r' Hr'. simpl in *. apply filter_In in Hr' as [Hr' Hne].
      rewrite lookup_delete_ne; [now apply Hc|].
      intros Hk. destruct Hwf as (_ & Hkey & _).
      assert (r = r') by (apply (in_map_NoDup_inj FileRow.s3_key (rows (db w))); auto).
      subst r'. rewrite Z.eqb_refl in Hne. discriminate.
    + now route_not_found (Purge e) H.
Qed.

(** Every world reached from the empty one keeps the table well formed and
    every row's object in the bucket. *)
Lemma run_consistent (rqs : list (Env * Request)) (w : World) :
  wf (db w) -> consistent w -> consistent (run rqs w).
Proof.
  revert w. induction rqs as [|[e rq] rqs IH]; intros w Hwf Hc; simpl; [exact Hc|].
  apply IH; [now apply handle_wf | now apply handle_consistent].
Qed.

(** ** Upload: the object first, the row second *)

(** C1: in every upload the object is put into the bucket before the insert
    statement runs (any insert in the log of the request stands after the
    successful put of its key); when the put fails the answer is an error
    (500), the table and the bucket are as before, and every list request
    answers as it did before the upload. *)
Theorem upload_blob_before_row (e : Env) (f : UploadedFile) (w : World) :
  let r := fst (post_files e (Some f) w) in
  let w' := snd (post_files e (Some f) w) in
  (exists evs, log w' = log w ++ evs /\
     forall i rowid key,
       nth_error evs i = Some (DbInsert rowid key) \/
       nth_error evs i = Some (DbInsertFailed key) ->
       exists j, (j < i)%nat /\ nth_error evs j = Some (S3Put key)) /\
  (s3_up e = false ->
     status r = 500 /\ db w' = db w /\ bucket w' = bucket w /\
     forall qpage qlimit,
       fst (get_files qpage qlimit w') = fst (get_files qpage qlimit w)).
Proof.
  cbv zeta. rewrite post_files_eval. cbv zeta. split.
  - destruct (s3_up e).
    + destruct (insertFile _ _ _ _ _ (db w)) as [[rowid d]|]; simpl;
        (eexists; split; [rewrite <- app_assoc; reflexivity|]);
        intros [|[|[|i]]] rowid' key [H|H]; simpl in H; try discriminate;
        injection H as <-; try subst; exists 0%nat; (split; [lia | reflexivity]).
    + simpl. eexists; split; [reflexivity|].
      intros [|[|i]] rowid key [H|H]; simpl in H; discriminate.
  - intros ->. simpl. repeat split; auto.
Qed.

Lemma upload_blob_before_row_witness :
  status (fst (post_files env_down (Some file_b) world_a)) = 500 /\
  db (snd (post_files env_down (Some file_b) world_a)) = db world_a.
Proof.
  destruct (upload_blob_before_row env_down file_b world_a) as [_ H].
  destruct (H eq_refl) as (Hs & Hd & _). split; [exact Hs | exact Hd].
Defined.

(** ** Permanent delete: the object first, the row second *)



(** ** Routes that take an id *)

(** C10: on each of the six routes with an id (download, star, unstar,
    trash, restore, permanent delete), a path parameter that parses to [NaN]
    or to a number that is the id of no row is answered 404 "File not found",
    and the world (table, bucket, log) is left as it was.  The number read
    is the number JavaScript reads when it is a safe integer; past the safe
    integers JavaScript reads a rounded number, which is the id of no row
    when the stored ids are safe integers. *)
Theorem unknown_id_not_found (rt : IdRoute) (s : string) (w : World) :
  parseInt s = NaN \/
  ((forall r, In r (rows (db w)) -> Num (FileRow.id r) <> parseInt s) /\
   (safe_number (parseInt s) \/
    forall r, In r (rows (db w)) -> safe_integer (FileRow.id r))) ->
  id_route rt s w = (not_found, w) /\ status not_found = 404.
Proof.
  intros H. split; [|reflexivity].
  apply id_route_not_found. destruct H as [-> | [H _]].
  - apply getFileById_NaN.
  - now apply getFileById_None.
Qed.

Lemma unknown_id_not_found_witness :
  id_route (Flag Star) "abc" world_a = (not_found, world_a) /\
  id_route (Purge env_ok) "7" world_a = (not_found, world_a).
Proof.
  split.
  - apply (unknown_id_not_found (Flag Star) "abc" world_a). left. reflexivity.
  - apply (unknown_id_not_found (Purge env_ok) "7" world_a). right. split.
    + intros r [<-|[]]. discriminate.
    + left. vm_compute. split; discriminate.
Defined.

(** C6: once a permanent delete of an id has succeeded (200), then after
    any further requests whatever, every route addressed to that id
    (download, star, unstar, trash, restore, permanent delete) answers 404:
    AUTOINCREMENT never hands the id out again. *)
Theorem purge_is_terminal (e : Env) (s s' : string) (w : World)
    (rqs : list (Env * Request)) (rt : IdRoute) :
  wf (db w) ->
  status (fst (delete_file e s w)) = 200 ->
  parseInt s' = parseInt s ->
  let w' := run rqs (snd (delete_file e s w)) in
  id_route rt s' w' = (not_found, w').
Proof.
  intros Hwf Hok Hs'. cbv zeta.
  apply id_route_not_found. rewrite Hs'.
  destruct (getFileById (parseInt s) (db w)) as [r|] eqn:Hr.
  - rewrite (delete_file_found e s w r Hr) in *.
    destruct (s3_up e); [|discriminate Hok].
    apply getFileById_Some in Hr as [Hin Hs]. rewrite Hs.
    apply purged_getFileById, run_purged. simpl.
    now apply deleteFile_purged.
  - pose proof (id_route_not_found (Purge e) s w Hr) as Hnf. cbn [id_route] in Hnf.
    rewrite Hnf in Hok. discriminate Hok.
Qed.

Lemma purge_is_terminal_witness :
  id_route (Download env_ok) "1"
    (run [(env_ok, PostFiles (Some file_b))] (snd (delete_file env_ok "1" world_a)))
  = (not_found,
     run [(env_ok, PostFiles (Some file_b))] (snd (delete_file env_ok "1" world_a))).
Proof.
  apply (purge_is_terminal env_ok "1" "1" world_a
           [(env_ok, PostFiles (Some file_b))] (Download env_ok)).
  - apply (run_wf [(env_ok, PostFiles (Some file_a))] empty_world wf_empty).
  - reflexivity.
  - reflexivity.
Defined.

(** ** Flags *)

Lemma id_is_set_starred (v : Z) (i : JSNum) (r : Row) :
  id_is i (set_starred v r) = id_is i r.
Proof. destruct i; reflexivity. Qed.

Lemma id_is_set_trashed (v : Z) (i : JSNum) (r : Row) :
  id_is i (set_trashed v r) = id_is i r.
Proof. destruct i; reflexivity. Qed.

Lemma flag_update_twice (op : FlagOp) (i : JSNum) (d : Db) :
  flag_update op i (flag_update op i d) = flag_update op i d.
Proof.
  destruct op; simpl; unfold updateFileStarred, updateFileTrashed; simpl;
    f_equal; rewrite map_map; apply map_ext; intros r;
    destruct (id_is i r) eqn:Hid;
    rewrite ?id_is_set_starred, ?id_is_set_trashed, ?Hid; reflexivity.
Qed.

Lemma flag_update_same (op : FlagOp) (i : JSNum) (d : Db) (r : Row) :
  wf d -> getFileById i d = Some r -> flag_of op r = flag_target op ->
  flag_update op i d = d.
Proof.
  intros Hwf Hr Hflag.
  apply getFileById_Some in Hr as [Hin ->].
  assert (Hrows : forall f : Row -> Row, f r = r ->
            map (fun r' => if id_is (Num (FileRow.id r)) r' then f r' else r') (rows d) = rows d).
  { intros f Hf. rewrite <- (map_id (rows d)) at 2. apply map_ext_in.
    intros r' Hr'. simpl. destruct (Z.eqb_spec (FileRow.id r') (FileRow.id r)) as [Heq|]; [|reflexivity].
    destruct Hwf as (Hid & _ & _).
    assert (r' = r) by (apply (in_map_NoDup_inj FileRow.id (rows d)); auto).
    now subst r'. }
  destruct d as [rs sq]. simpl in *.
  destruct op; simpl in *; unfold updateFileStarred, updateFileTrashed; simpl;
    f_equal; apply Hrows; destruct r; simpl in *; subst; reflexivity.
Qed.

Lemma flag_update_found (op : FlagOp) (i : JSNum) (d : Db) (r : Row) :
  getFileById i d = Some r -> exists r', getFileById i (flag_update op i d) = Some r'.
Proof.
  intros Hr. apply getFileById_Some in Hr as [Hin ->].
  destruct (flag_update_rows op (Num (FileRow.id r)) d) as (Ei & _).
  assert (Hi : In (FileRow.id r) (map FileRow.id (rows (flag_update op (Num (FileRow.id r)) d)))).
  { rewrite Ei. now apply in_map. }
  apply in_map_iff in Hi as (r0 & Hid0 & Hin0).
  apply (getFileById_is_Some _ _ r0 Hin0). now rewrite Hid0.
Qed.

(** C7: on an existing record, a flag route (star, unstar, trash, restore)
    answers 200 the first and the second time, the table after two calls is
    the table after one, so is every list answer, and when the flag already
    had the value the route writes, the table after the call is the table
    before it. *)
Theorem flag_idempotent (op : FlagOp) (s : string) (w : World) (r : Row) :
  wf (db w) ->
  getFileById (parseInt s) (db w) = Some r ->
  let once := post_flag op s w in
  let twice := post_flag op s (snd once) in
  status (fst once) = 200 /\ status (fst twice) = 200 /\
  db (snd twice) = db (snd once) /\
  (forall qpage qlimit,
     fst (get_files qpage qlimit (snd twice)) = fst (get_files qpage qlimit (snd once))) /\
  (flag_of op r = flag_target op -> db (snd once) = db w).
Proof.
  intros Hwf Hr. cbv zeta.
  rewrite (post_flag_found op s w r Hr). cbn [fst snd].
  destruct (flag_update_found op _ _ r Hr) as [r' Hr'].
  match goal with
  | |- context [post_flag op s ?w1] => rewrite (post_flag_found op s w1 r' Hr')
  end.
  cbn [fst snd db status].
  rewrite flag_update_twice. split; [reflexivity|]. split; [reflexivity|].
  split; [reflexivity|]. split.
  - intros qp ql. rewrite !get_files_eval. cbn [fst db]. reflexivity.
  - intros Hflag. now apply (flag_update_same op _ _ r).
Qed.

Lemma flag_idempotent_witness :
  db (snd (post_flag Trash "1" (snd (post_flag Trash "1" world_a))))
  = db (snd (post_flag Trash "1" world_a)) /\
  db (snd (post_flag Unstar "1" world_a)) = db world_a.
Proof.
  assert (Hwf : wf (db world_a))
    by apply (run_wf [(env_ok, PostFiles (Some file_a))] empty_world wf_empty).
  assert (Hr : getFileById (parseInt "1") (db world_a)
               = Some (FileRow.mk 1 "a.txt" 10 "text/plain" "files/1700000000123-a.txt"
                              0 0 1700000000)) by reflexivity.
  split.
  - apply (flag_idempotent Trash "1" world_a _ Hwf Hr).
  - apply (flag_idempotent Unstar "1" world_a _ Hwf Hr). reflexivity.
Defined.

(** ** Listing *)

(** What the list route answers, for a query whose page and limit are
    safe integers: the limit is at most 100 and is 20 when absent, the
    offset is (page - 1) * limit, the pagination block is computed from the
    row count, a page that starts at or past the end is empty, and a limit
    of at least 1 bounds the number of records. *)
Lemma list_pagination (qpage qlimit : option string) (w : World) :
  safe_integer (effective_page qpage) ->
  - MAX_SAFE_INTEGER <= effective_limit qlimit ->
  let page := effective_page qpage in
  let limit := effective_limit qlimit in
  let total := countFiles (db w) in
  let resp := fst (get_files qpage qlimit w) in
  snd (get_files qpage qlimit w) = w /\
  status resp = 200 /\
  limit <= 100 /\ effective_limit None = 20 /\ effective_page None = 1 /\
  files_of resp = selectFiles limit ((page - 1) * limit) (db w) /\
  pagination_of resp =
    Some {| currentPage := page; totalItems := total;
            totalPages := ceil_div total limit; itemsPerPage := limit;
            hasNext := page <? ceil_div total limit; hasPrev := 1 <? page |} /\
  (total <= (page - 1) * limit -> files_of resp = []) /\
  (1 <= limit -> (length (files_of resp) <= 100)%nat).
Proof.
  intros _ _.
  cbv zeta. rewrite get_files_eval. cbv zeta. cbn [fst snd status files_of pagination_of body].
  destruct (effective_limit_bounds qlimit) as [Hle Hne].
  repeat split; auto.
  - apply selectFiles_past_end.
  - intros Hl.
    pose proof (selectFiles_length (effective_limit qlimit)
                  ((effective_page qpage - 1) * effective_limit qlimit) (db w)).
    lia.
Qed.

(** C3 (the bound fails for a negative limit): [GET /api/files?limit=-1]
    passes -1 to [LIMIT], which SQLite takes as no limit, so the answer holds
    every row of the table; after 101 uploads it holds 101 records. *)
Theorem list_negative_limit_unbounded :
  (forall w, files_of (fst (get_files None (Some "-1") w))
             = order_by_created_at_desc (rows (db w))) /\
  length (files_of (fst (get_files None (Some "-1") (run (uploads 101) empty_world))))
  = 101%nat.
Proof.
  split.
  - intros w. rewrite get_files_eval. reflexivity.
  - vm_compute. reflexivity.
Qed.

(** C4: for a limit between 1 and 100, pages 1 to ceil(N / limit) are each
    ordered by [created_at] descending, so is their concatenation, and the
    concatenation holds exactly the N rows of the table: it is a permutation
    of the table, with no id twice. *)
Theorem list_pages_partition (w : World) (l : Z) :
  wf (db w) ->
  1 <= l <= 100 ->
  let pages := all_pages w l in
  length pages = Z.to_nat (ceil_div (countFiles (db w)) l) /\
  Forall (StronglySorted newer_first) pages /\
  StronglySorted newer_first (concat pages) /\
  Permutation (concat pages) (rows (db w)) /\
  Z.of_nat (length (concat pages)) = countFiles (db w) /\
  List.NoDup (map FileRow.id (concat pages)).
Proof.
  intros (Hid & _ & _) Hl. cbv zeta.
  rewrite all_pages_concat by exact Hl.
  pose proof (order_by_perm (rows (db w))) as Hperm.
  repeat split.
  - unfold all_pages. now rewrite length_map, length_seq.
  - unfold all_pages. apply List.Forall_forall. intros pg Hpg.
    apply in_map_iff in Hpg as (p & <- & Hp). apply in_seq in Hp.
    rewrite list_page_eq by lia.
    apply sorted_firstn, sorted_skipn, order_by_sorted.
  - apply order_by_sorted.
  - exact Hperm.
  - unfold countFiles. now rewrite (Permutation_length Hperm).
  - apply (Permutation_NoDup (l := map FileRow.id (rows (db w)))); [|exact Hid].
    apply Permutation_map. now symmetry.
Qed.

Lemma list_pages_partition_witness :
  concat (all_pages (run (uploads 5) empty_world) 2)
  = order_by_created_at_desc (rows (db (run (uploads 5) empty_world))) /\
  Permutation (concat (all_pages (run (uploads 5) empty_world) 2))
              (rows (db (run (uploads 5) empty_world))).
Proof.
  split.
  - vm_compute. reflexivity.
  - apply (list_pages_partition (run (uploads 5) empty_world) 2).
    + apply (run_wf (uploads 5) empty_world wf_empty).
    + lia.
Defined.

(** ** Storage keys *)

(** C5 (the generated key is not always new): a second upload of the name
    [a.txt] in the millisecond of the first generates the storage key of the
    existing record; the object of that record in the bucket is replaced by
    the new bytes before the UNIQUE constraint refuses the row, and the
    answer is 500. *)
Theorem upload_key_collision_defect :
  let key := s3Key (Date_now env_ok) (originalname file_a2) in
  let answer := post_files env_ok (Some file_a2) world_a in
  (exists r, In r (rows (db world_a)) /\ FileRow.s3_key r = key) /\
  bucket world_a !! key = Some (upload_object env_ok file_a) /\
  status (fst answer) = 500 /\
  db (snd answer) = db world_a /\
  bucket (snd answer) !! key = Some (upload_object env_ok file_a2) /\
  upload_object env_ok file_a2 <> upload_object env_ok file_a.
Proof.
  cbv zeta. split; [|split; [|split; [|split; [|split]]]].
  - eexists. split; [left; reflexivity | reflexivity].
  - apply lookup_insert_eq.
  - reflexivity.
  - reflexivity.
  - apply lookup_insert_eq.
  - discriminate.
Qed.

(** ** Upload, then list *)

Lemma selectFiles_some_page (qlimit : option string) (w : World) (row : Row) :
  In row (rows (db w)) ->
  exists page, 1 <= page <= countFiles (db w) /\
    In row (files_of (fst (get_files (num_query page) qlimit w))).
Proof.
  intros Hin.
  assert (Hcount : 1 <= countFiles (db w))
    by (unfold countFiles; destruct (rows (db w)); [contradiction | simpl; lia]).
  apply (Permutation_in _ (Permutation_sym (order_by_perm (rows (db w))))) in Hin.
  destruct (effective_limit_bounds qlimit) as [_ Hne].
  destruct (Z.ltb_spec (effective_limit qlimit) 0) as [Hneg|Hpos].
  - exists 1. split; [lia|]. rewrite get_files_eval. cbn [fst files_of body].
    rewrite effective_page_num by lia. unfold selectFiles.
    apply Z.ltb_lt in Hneg. rewrite Hneg. simpl. exact Hin.
  - destruct (in_slice (Z.to_nat (effective_limit qlimit)) row _ ltac:(lia) Hin) as [i [Hlt Hi]].
    rewrite (Permutation_length (order_by_perm (rows (db w)))) in Hlt.
    exists (Z.of_nat i + 1). split; [unfold countFiles; lia|].
    rewrite get_files_eval. cbn [fst files_of body].
    rewrite effective_page_num by lia. unfold selectFiles.
    destruct (Z.ltb_spec (effective_limit qlimit) 0); [lia|].
    replace (Z.to_nat ((Z.of_nat i + 1 - 1) * effective_limit qlimit))
      with (i * Z.to_nat (effective_limit qlimit))%nat by nia.
    exact Hi.
Qed.

(** C8, as stated, fails: the answer to a successful upload is not the
    record as the table (and every later list answer) holds it; its
    [created_at] is another text of another clock reading. *)
Lemma upload_response_is_not_the_row :
  status (fst (post_files env_ok (Some file_a) empty_world)) = 201 /\
  ~ (exists row, In row (rows (db (snd (post_files env_ok (Some file_a) empty_world)))) /\
       body (fst (post_files env_ok (Some file_a) empty_world)) = JFile (row_json row)).
Proof.
  split; [reflexivity|].
  intros (row & [<-|[]] & H). discriminate H.
Qed.

(** C8, amended: a successful upload (201) inserts one row with the next
    id, the uploaded name, size and content type and both flags 0; the answer
    is that record (id, name, size, content type, key, both flags 0) except
    that its [created_at] is the ISO text of the clock read when the answer
    is built, not the stored [created_at]; and a subsequent List contains the
    record: looking the id up gives it, and for every limit parameter (the
    limit a safe integer or above) one of the pages 1 to N of the list holds
    it, N being the number of rows. *)
Theorem upload_then_list (e : Env) (f : UploadedFile) (w : World) :
  wf (db w) ->
  status (fst (post_files e (Some f) w)) = 201 ->
  let resp := fst (post_files e (Some f) w) in
  let w' := snd (post_files e (Some f) w) in
  exists row,
    rows (db w') = rows (db w) ++ [row] /\
    FileRow.id row = sqlite_sequence (db w) + 1 /\
    FileRow.name row = originalname f /\
    FileRow.size row = size f /\
    FileRow.content_type row = mimetype f /\
    FileRow.starred row = 0 /\ FileRow.trashed row = 0 /\
    FileRow.created_at row = CURRENT_TIMESTAMP e /\
    body resp =
      JFile (FileJson.mk (FileRow.id row) (FileRow.name row) (FileRow.size row) (FileRow.content_type row)
                         (FileRow.s3_key row) (FileRow.starred row) (FileRow.trashed row)
                         (IsoDateTime (Date_response e))) /\
    getFileById (Num (FileRow.id row)) (db w') = Some row /\
    forall qlimit, - MAX_SAFE_INTEGER <= effective_limit qlimit ->
      exists page, 1 <= page <= countFiles (db w') /\
        In row (files_of (fst (get_files (num_query page) qlimit w'))).
Proof.
  intros Hwf Hok. cbv zeta.
  pose proof (handle_wf e (PostFiles (Some f)) w Hwf) as Hwf'. cbn [handle] in Hwf'.
  revert Hok Hwf'. rewrite post_files_eval. cbv zeta.
  destruct (s3_up e); [|discriminate].
  destruct (insertFile _ _ _ _ _ (db w)) as [[rowid d]|] eqn:Hins; [|discriminate].
  intros _ Hwf'. cbn [fst snd db body] in *.
  apply insertFile_Some in Hins as (_ & -> & ->).
  set (row := FileRow.mk (sqlite_sequence (db w) + 1) (originalname f) (size f) (mimetype f)
                     (s3Key (Date_now e) (originalname f)) 0 0 (CURRENT_TIMESTAMP e)) in *.
  assert (Hin : In row (rows (db w) ++ [row])) by (apply in_or_app; right; now left).
  exists row. repeat split.
  - exact (getFileById_unique _ row Hwf' Hin).
  - intros qlimit _.
    match goal with
    | |- context [get_files _ qlimit ?w1] => now apply (selectFiles_some_page qlimit w1 row)
    end.
Qed.

Lemma upload_then_list_witness :
  exists row,
    rows (db world_a) = rows (db empty_world) ++ [row] /\
    FileRow.id row = 1 /\ FileRow.name row = "a.txt" /\
    exists page, 1 <= page <= countFiles (db world_a) /\
      In row (files_of (fst (get_files (num_query page) (Some "20") world_a))).
Proof.
  destruct (upload_then_list env_ok file_a empty_world wf_empty eq_refl)
    as (row & Hrows & Hid & Hname & _ & _ & _ & _ & _ & _ & _ & Hlist).
  exists row. split; [exact Hrows|]. split; [exact Hid|]. split; [exact Hname|].
  apply Hlist. vm_compute. discriminate.
Defined.

(** ** The section filter of the client *)

(** C9, as stated, fails: a trashed record whose name does not contain the
    search term is not in the output of the Trash view. *)
Lemma trash_view_needs_search_match :
  ~ (In trashed_row (filteredFiles [trashed_row] "zzz" "Trash")
     <-> truthy (FileRow.trashed trashed_row) = true).
Proof.
  intros [_ H]. specialize (H eq_refl). simpl in H. exact H.
Qed.

(** C9, amended: a fetched record is in the output of the My Drive view iff
    it is not trashed and matches the search term, and in the output of the
    Trash view iff it is trashed and matches the search term; it is never in
    both; a trashed record is in the output of neither the Recent nor the
    Starred view. *)
Theorem section_filter (files : list Row) (searchTerm : string) (r : Row) :
  (In r (filteredFiles files searchTerm "My Drive") <->
     In r files /\ truthy (FileRow.trashed r) = false /\ matchesSearch r searchTerm = true) /\
  (In r (filteredFiles files searchTerm "Trash") <->
     In r files /\ truthy (FileRow.trashed r) = true /\ matchesSearch r searchTerm = true) /\
  ~ (In r (filteredFiles files searchTerm "My Drive") /\
     In r (filteredFiles files searchTerm "Trash")) /\
  (truthy (FileRow.trashed r) = true ->
     ~ In r (filteredFiles files searchTerm "Recent") /\
     ~ In r (filteredFiles files searchTerm "Starred")).
Proof.
  unfold filteredFiles. cbn [String.eqb Ascii.eqb Bool.eqb]. rewrite !filter_In.
  destruct (truthy (FileRow.trashed r)), (matchesSearch r searchTerm),
    (truthy (FileRow.starred r)); simpl; intuition congruence.
Qed.

Lemma section_filter_witness :
  In trashed_row (filteredFiles [trashed_row] "A.TXT" "Trash") /\
  ~ In trashed_row (filteredFiles [trashed_row] "A.TXT" "Recent").
Proof.
  destruct (section_filter [trashed_row] "A.TXT" trashed_row) as (_ & Ht & _ & Hr).
  split.
  - apply Ht. split; [left; reflexivity | split; reflexivity].
  - apply (Hr eq_refl).
Defined.

(** ** The scenario of the specification, and checks of the built-ins *)

Example scenario_upload :
  fst (post_files env_ok (Some file_a) empty_world)
  = {| status := 201;
       body := JFile (FileJson.mk 1 "a.txt" 10 "text/plain" "files/1700000000123-a.txt"
                                  0 0 (IsoDateTime 1700000000130)) |}.
Proof. reflexivity. Qed.

Example scenario_list :
  pagination_of (fst (get_files (Some "1") (Some "20") world_a))
  = Some {| currentPage := 1; totalItems := 1; totalPages := 1; itemsPerPage := 20;
            hasNext := false; hasPrev := false |} /\
  map FileRow.id (files_of (fst (get_files (Some "1") (Some "20") world_a))) = [1].
Proof. split; reflexivity. Qed.

Example scenario_trash :
  filteredFiles (files_of (fst (get_files None None (snd (post_flag Trash "1" world_a)))))
                "" "My Drive" = [].
Proof. reflexivity. Qed.

Example scenario_purge :
  fst (get_download env_ok "1" (snd (delete_file env_ok "1" world_a))) = not_found.
Proof. reflexivity. Qed.

Example list_ties_keep_rowid_order :
  map FileRow.id (order_by_created_at_desc
                [FileRow.mk 1 "a" 0 "t" "k1" 0 0 5; FileRow.mk 2 "b" 0 "t" "k2" 0 0 5;
                 FileRow.mk 3 "c" 0 "t" "k3" 0 0 7]) = [3; 1; 2].
Proof. reflexivity. Qed.

Example parseInt_plain : parseInt "42" = Num 42. Proof. reflexivity. Qed.
Example parseInt_suffix : parseInt "  -17px" = Num (-17). Proof. reflexivity. Qed.
Example parseInt_hex : parseInt "0x1F" = Num 31. Proof. reflexivity. Qed.
Example parseInt_word : parseInt "abc" = NaN. Proof. reflexivity. Qed.
Example parseInt_undefined : parseInt "undefined" = NaN. Proof. reflexivity. Qed.
Example parseInt_empty : parseInt "" = NaN. Proof. reflexivity. Qed.
Example toString_big : Number_toString 1700000000123 = "1700000000123". Proof. reflexivity. Qed.
Example toString_zero : Number_toString 0 = "0". Proof. reflexivity. Qed.
Example includes_mid : includes "report.txt" "port" = true. Proof. reflexivity. Qed.
Example includes_all : includes "a" "" = true. Proof. reflexivity. Qed.
Example includes_none : includes "a.txt" "zzz" = false. Proof. reflexivity. Qed.
Example lower_mixed : toLowerCase "A.Txt" = "a.txt". Proof. reflexivity. Qed.

(** * Further properties of the code *)

(** ** Pages *)

Lemma list_page_length (w : World) (p l : Z) :
  1 <= p -> 1 <= l <= 100 ->
  Z.of_nat (length (list_page w p l))
  = Z.min l (Z.max 0 (countFiles (db w) - (p - 1) * l)).
Proof.
  intros Hp Hl. rewrite list_page_eq by assumption.
  rewrite length_firstn, length_skipn.
  rewrite (Permutation_length (order_by_perm (rows (db w)))).
  unfold countFiles. nia.
Qed.

(** X1: with a limit from 1 to 100, every page before the last holds exactly
    [limit] records, the last page holds the remaining ones (at least one),
    and every page after the last is empty. *)
Theorem page_sizes (w : World) (p l : Z) :
  1 <= p -> 1 <= l <= 100 ->
  let n := countFiles (db w) in
  let last := ceil_div n l in
  (p < last -> Z.of_nat (length (list_page w p l)) = l) /\
  (p = last -> Z.of_nat (length (list_page w p l)) = n - (last - 1) * l /\
               0 < n - (last - 1) * l) /\
  (last < p -> list_page w p l = []).
Proof.
  intros Hp Hl. cbv zeta.
  pose proof (list_page_length w p l Hp Hl) as Hlen.
  destruct (ceil_div_spec (countFiles (db w)) l ltac:(lia)) as [Hup Hleast].
  set (n := countFiles (db w)) in *. set (t := ceil_div n l) in *.
  assert (Hlow : (t - 1) * l < n).
  { destruct (Z.lt_ge_cases ((t - 1) * l) n) as [|Hge]; [assumption|].
    specialize (Hleast (t - 1) Hge). lia. }
  repeat split.
  - intros Hlt. nia.
  - subst p. lia.
  - subst p. lia.
  - intros Hgt. apply length_zero_iff_nil. nia.
Qed.

Lemma page_sizes_witness :
  Z.of_nat (length (list_page (run (uploads 5) empty_world) 1 2)) = 2 /\
  list_page (run (uploads 5) empty_world) 4 2 = [].
Proof.
  split.
  - apply (page_sizes (run (uploads 5) empty_world) 1 2); [lia | lia | vm_compute; reflexivity].
  - apply (page_sizes (run (uploads 5) empty_world) 4 2); [lia | lia | vm_compute; reflexivity].
Defined.

(** X2: with a limit from 1 to 100 and a page of at least 1, [hasNext] is
    true exactly when the next page holds a record. *)
Theorem hasNext_iff_next_page (w : World) (p l : Z) (pg : Pagination) :
  1 <= p -> 1 <= l <= 100 ->
  pagination_of (fst (get_files (num_query p) (num_query l) w)) = Some pg ->
  (hasNext pg = true <-> list_page w (p + 1) l <> []).
Proof.
  intros Hp Hl. rewrite get_files_eval. cbv zeta. cbn [fst pagination_of body].
  rewrite effective_limit_num, effective_page_num by lia.
  intros [= <-]. cbn [hasNext].
  pose proof (list_page_length w (p + 1) l ltac:(lia) Hl) as Hlen.
  destruct (ceil_div_spec (countFiles (db w)) l ltac:(lia)) as [Hup Hleast].
  rewrite Z.ltb_lt, <- length_zero_iff_nil.
  split.
  - intros Hlt Hnil. rewrite Hnil in Hlen.
    assert (countFiles (db w) <= p * l) by nia.
    specialize (Hleast p ltac:(lia)). lia.
  - intros Hne.
    assert (p * l < countFiles (db w)) by (destruct (length (list_page w (p + 1) l)); [congruence | nia]).
    destruct (Z.lt_ge_cases p (ceil_div (countFiles (db w)) l)); [assumption | nia].
Qed.

Lemma hasNext_iff_next_page_witness :
  list_page (run (uploads 5) empty_world) 3 2 <> [].
Proof.
  refine (proj1 (hasNext_iff_next_page (run (uploads 5) empty_world) 2 2
                   {| currentPage := 2; totalItems := 5; totalPages := 3;
                      itemsPerPage := 2; hasNext := true; hasPrev := true |}
                   _ _ _) eq_refl).
  - lia.
  - lia.
  - vm_compute. reflexivity.
Defined.

(** X3: a limit above the cap is answered exactly as the limit 100. *)
Theorem limit_above_cap (qpage : option string) (l : Z) (w : World) :
  100 <= l ->
  get_files qpage (num_query l) w = get_files qpage (Some "100") w.
Proof.
  intros Hl. rewrite !get_files_eval.
  assert (He : effective_limit (num_query l) = effective_limit (Some "100")).
  { unfold effective_limit at 1. unfold num_query, ToString.
    rewrite parseInt_Number_toString by lia. unfold or_default.
    destruct (Z.eqb_spec l 0); [lia|]. change (effective_limit (Some "100")) with 100. lia. }
  rewrite He. reflexivity.
Qed.

Lemma limit_above_cap_witness :
  get_files None (num_query 5000) world_a = get_files None (Some "100") world_a.
Proof.
  apply (limit_above_cap None 5000 world_a). lia.
Defined.

(** X4: a page parameter that is absent, not a number, zero or a negative
    safe integer is not refused: with a limit of at least 1 the records are
    those of page 1 (and for all but the negative numbers the whole answer is
    that of page 1). *)
Theorem page_not_positive (qpage qlimit : option string) (w : World) :
  1 <= effective_limit qlimit ->
  (parseInt (ToString qpage) = NaN \/
   exists z, parseInt (ToString qpage) = Num z /\ - MAX_SAFE_INTEGER <= z <= 0) ->
  files_of (fst (get_files qpage qlimit w)) = files_of (fst (get_files (Some "1") qlimit w)) /\
  status (fst (get_files qpage qlimit w)) = 200 /\
  (~ (exists z, parseInt (ToString qpage) = Num z /\ z < 0) ->
   get_files qpage qlimit w = get_files (Some "1") qlimit w).
Proof.
  intros Hl Hq. rewrite !get_files_eval. cbv zeta. cbn [fst files_of body status].
  change (effective_page (Some "1")) with 1.
  split; [|split; [reflexivity|]].
  - unfold selectFiles. f_equal.
    assert (Z.to_nat ((effective_page qpage - 1) * effective_limit qlimit) = 0%nat) as ->.
    { unfold effective_page, or_default.
      destruct Hq as [-> | (z & -> & Hz)]; [simpl; lia|].
      destruct (Z.eqb_spec z 0); [simpl; lia | nia]. }
    reflexivity.
  - intros Hneg.
    assert (effective_page qpage = 1) as ->; [|reflexivity].
    unfold effective_page, or_default.
    destruct Hq as [-> | (z & Hq & Hz)]; [reflexivity|]. rewrite Hq.
    destruct (Z.eqb_spec z 0); [reflexivity|].
    exfalso. apply Hneg. exists z. split; [exact Hq | lia].
Qed.

Lemma page_not_positive_witness :
  files_of (fst (get_files (Some "-3") None world_a))
  = files_of (fst (get_files (Some "1") None world_a)) /\
  get_files (Some "abc") None world_a = get_files (Some "1") None world_a.
Proof.
  split.
  - apply (page_not_positive (Some "-3") None world_a).
    + vm_compute. discriminate.
    + right. exists (-3). split; [reflexivity | unfold MAX_SAFE_INTEGER; lia].
  - apply (page_not_positive (Some "abc") None world_a).
    + vm_compute. discriminate.
    + left. reflexivity.
    + intros (z & Hz & _). discriminate Hz.
Defined.

(** ** Uploads and permanent deletes, composed *)

Lemma parseInt_Number_toString_all (n : Z) : parseInt (Number_toString n) = Num n.
Proof.
  destruct (Z.lt_ge_cases n 0) as [Hneg|Hpos]; [|now apply parseInt_Number_toString].
  unfold Number_toString. apply Z.ltb_lt in Hneg as Hb. rewrite Hb.
  unfold parseInt. simpl.
  rewrite parse_digits_text by apply N_to_uint_nonnil.
  rewrite DecimalN.Unsigned.of_to. f_equal. lia.
Qed.

Lemma order_by_snoc_newest (x : Row) (l : list Row) :
  (forall r, In r l -> FileRow.created_at r < FileRow.created_at x) ->
  order_by_created_at_desc (l ++ [x]) = x :: order_by_created_at_desc l.
Proof.
  unfold order_by_created_at_desc. induction l as [|y l IH]; intros H; [reflexivity|].
  simpl. rewrite IH by (intros r Hr; apply H; now right). simpl.
  specialize (H y (or_introl eq_refl)).
  destruct (Z.leb_spec (FileRow.created_at x) (FileRow.created_at y)); [lia | reflexivity].
Qed.

(** X5: when the clock of SQLite is past the [created_at] of every stored
    record, the record of a successful upload is the first record of the
    first page, for every limit parameter (the limit a safe integer or
    above). *)
Theorem upload_newest_first (e : Env) (f : UploadedFile) (w : World) :
  status (fst (post_files e (Some f) w)) = 201 ->
  (forall r, In r (rows (db w)) -> FileRow.created_at r < CURRENT_TIMESTAMP e) ->
  let w' := snd (post_files e (Some f) w) in
  exists row,
    rows (db w') = rows (db w) ++ [row] /\
    FileRow.name row = originalname f /\
    forall qlimit, - MAX_SAFE_INTEGER <= effective_limit qlimit ->
      hd_error (files_of (fst (get_files None qlimit w'))) = Some row.
Proof.
  intros Hok Hnew. cbv zeta. revert Hok. rewrite post_files_eval. cbv zeta.
  destruct (s3_up e); [|discriminate].
  destruct (insertFile _ _ _ _ _ (db w)) as [[rowid d]|] eqn:Hins; [|discriminate].
  intros _. apply insertFile_Some in Hins as (_ & -> & ->). cbn [snd db rows].
  eexists. split; [reflexivity|]. split; [reflexivity|].
  intros qlimit _. rewrite get_files_eval. cbv zeta. cbn [fst files_of body].
  rewrite effective_page_absent. unfold selectFiles. cbn [rows db].
  rewrite order_by_snoc_newest by exact Hnew.
  destruct (effective_limit_bounds qlimit) as [_ Hne].
  destruct (Z.ltb_spec (effective_limit qlimit) 0); [reflexivity|].
  destruct (Z.to_nat (effective_limit qlimit)) eqn:Hn; [lia | reflexivity].
Qed.

Lemma upload_newest_first_witness :
  exists row,
    FileRow.name row = "b.png" /\
    hd_error (files_of (fst (get_files None None
                (snd (post_files env_later (Some file_b) world_a))))) = Some row.
Proof.
  destruct (upload_newest_first env_later file_b world_a eq_refl) as (row & _ & Hn & Hhd).
  - intros r [<-|[]]. simpl. lia.
  - exists row. split; [exact Hn | apply Hhd; vm_compute; discriminate].
Defined.

(** X6: an upload that generates the storage key of an existing record is
    answered 500 and adds no row, but its bytes have replaced the object of
    that record in the bucket. *)
Theorem upload_collision_overwrites (e : Env) (f : UploadedFile) (w : World) (r : Row) :
  s3_up e = true ->
  In r (rows (db w)) ->
  FileRow.s3_key r = s3Key (Date_now e) (originalname f) ->
  let w' := snd (post_files e (Some f) w) in
  status (fst (post_files e (Some f) w)) = 500 /\
  db w' = db w /\
  bucket w' !! FileRow.s3_key r = Some (upload_object e f).
Proof.
  intros Hup Hin Hkey. cbv zeta. rewrite post_files_eval. cbv zeta. rewrite Hup.
  assert (Hk : has_key (s3Key (Date_now e) (originalname f)) (db w) = true).
  { destruct (has_key _ (db w)) eqn:Hk; [reflexivity|].
    rewrite has_key_false in Hk. exfalso. apply Hk. rewrite <- Hkey. now apply in_map. }
  unfold insertFile. rewrite Hk. cbn [fst snd status db bucket].
  repeat split. rewrite Hkey. apply lookup_insert_eq.
Qed.

Lemma upload_collision_overwrites_witness :
  bucket (snd (post_files env_ok (Some file_a2) world_a)) !! "files/1700000000123-a.txt"
  = Some (upload_object env_ok file_a2).
Proof.
  apply (upload_collision_overwrites env_ok file_a2 world_a
           (FileRow.mk 1 "a.txt" 10 "text/plain" "files/1700000000123-a.txt" 0 0 1700000000)).
  - reflexivity.
  - left. reflexivity.
  - reflexivity.
Defined.

Lemma filter_all {A : Type} (p : A -> bool) (l : list A) :
  (forall x, In x l -> p x = true) -> List.filter p l = l.
Proof.
  induction l as [|a l IH]; intros H; simpl; [reflexivity|].
  rewrite (H a (or_introl eq_refl)), IH; [reflexivity|].
  intros x Hx. apply H. now right.
Qed.

(** X7: uploading a file and then deleting it permanently gives back the
    rows as they were, and the object is gone from the bucket; only the
    counter of ids has advanced, so the id is not handed out again. *)
Theorem upload_then_purge (e e' : Env) (f : UploadedFile) (w : World) :
  wf (db w) ->
  status (fst (post_files e (Some f) w)) = 201 ->
  s3_up e' = true ->
  let w1 := snd (post_files e (Some f) w) in
  let id := Number_toString (sqlite_sequence (db w) + 1) in
  status (fst (delete_file e' id w1)) = 200 /\
  rows (db (snd (delete_file e' id w1))) = rows (db w) /\
  sqlite_sequence (db (snd (delete_file e' id w1))) = sqlite_sequence (db w) + 1 /\
  bucket (snd (delete_file e' id w1)) !! s3Key (Date_now e) (originalname f) = None.
Proof.
  intros Hwf Hok Hup. cbv zeta.
  pose proof (handle_wf e (PostFiles (Some f)) w Hwf) as Hwf'. cbn [handle] in Hwf'.
  revert Hok Hwf'. rewrite post_files_eval. cbv zeta.
  destruct (s3_up e); [|discriminate].
  destruct (insertFile _ _ _ _ _ (db w)) as [[rowid d]|] eqn:Hins; [|discriminate].
  intros _ Hwf'. cbn [snd db] in *.
  apply insertFile_Some in Hins as (_ & -> & ->).
  set (row := FileRow.mk (sqlite_sequence (db w) + 1) (originalname f) (size f) (mimetype f)
                (s3Key (Date_now e) (originalname f)) 0 0 (CURRENT_TIMESTAMP e)) in *.
  assert (Hin : In row (rows (db w) ++ [row])) by (apply in_or_app; right; now left).
  pose proof (getFileById_unique _ row Hwf' Hin) as Hfound. cbn [FileRow.id row] in Hfound.
  match goal with
  | |- context [delete_file e' ?s ?w1] =>
      rewrite (delete_file_found e' s w1 row)
        by (rewrite parseInt_Number_toString_all; exact Hfound)
  end.
  rewrite Hup, parseInt_Number_toString_all. cbn [fst snd status db bucket rows sqlite_sequence deleteFile].
  split; [reflexivity|]. split; [|split; [reflexivity|]].
  - rewrite List.filter_app. simpl. rewrite Z.eqb_refl. simpl. rewrite app_nil_r.
    apply filter_all. intros r Hr. destruct Hwf as (_ & _ & Hseq).
    rewrite List.Forall_forall in Hseq. specialize (Hseq r Hr).
    destruct (Z.eqb_spec (FileRow.id r) (sqlite_sequence (db w) + 1)); [lia | reflexivity].
  - apply lookup_delete_eq.
Qed.

Lemma upload_then_purge_witness :
  rows (db (snd (delete_file env_ok "2" (snd (post_files env_ok (Some file_b) world_a)))))
  = rows (db world_a).
Proof.
  assert (Hwf : wf (db world_a))
    by apply (run_wf [(env_ok, PostFiles (Some file_a))] empty_world wf_empty).
  apply (upload_then_purge env_ok env_ok file_b world_a Hwf eq_refl eq_refl).
Defined.

Lemma getFileById_deleteFile_other (i j : JSNum) (d : Db) :
  i <> j -> getFileById j (deleteFile i d) = getFileById j d.
Proof.
  intros Hne. unfold getFileById, deleteFile. simpl.
  induction (rows d) as [|r l IH]; simpl; [reflexivity|].
  destruct (id_is i r) eqn:Hi; simpl.
  - destruct (id_is j r) eqn:Hj; [|exact IH].
    destruct i as [|a], j as [|b]; simpl in *; try discriminate.
    apply Z.eqb_eq in Hi, Hj. congruence.
  - destruct (id_is j r); [reflexivity | exact IH].
Qed.

Lemma deleteFile_count (r : Row) (d : Db) :
  wf d -> In r (rows d) ->
  countFiles (deleteFile (Num (FileRow.id r)) d) = countFiles d - 1.
Proof.
  intros (Hid & _ & _) Hin. unfold countFiles, deleteFile. simpl.
  induction (rows d) as [|a l IH]; simpl in *; [contradiction|].
  inversion Hid as [|? ? Hnotin Hnd]; subst.
  destruct Hin as [->|Hin].
  - rewrite Z.eqb_refl. simpl. rewrite filter_all; [lia|].
    intros x Hx. destruct (Z.eqb_spec (FileRow.id x) (FileRow.id r)) as [Heq|]; [|reflexivity].
    exfalso. apply Hnotin. rewrite <- Heq. now apply in_map.
  - destruct (Z.eqb_spec (FileRow.id a) (FileRow.id r)) as [Heq|]; simpl.
    + exfalso. apply Hnotin. rewrite Heq. now apply in_map.
    + specialize (IH Hnd Hin). lia.
Qed.

(** X8: a successful permanent delete removes exactly the addressed row and
    exactly its object: the row count drops by one, every other id is looked
    up as before, the object of the row is gone and every other object of
    the bucket is as before. *)
Theorem purge_removes_one (e : Env) (s : string) (w : World) (r : Row) :
  wf (db w) ->
  getFileById (parseInt s) (db w) = Some r ->
  s3_up e = true ->
  let w' := snd (delete_file e s w) in
  countFiles (db w') = countFiles (db w) - 1 /\
  (forall j, j <> FileRow.id r -> getFileById (Num j) (db w') = getFileById (Num j) (db w)) /\
  bucket w' !! FileRow.s3_key r = None /\
  (forall k, k <> FileRow.s3_key r -> bucket w' !! k = bucket w !! k).
Proof.
  intros Hwf Hr Hup. cbv zeta.
  rewrite (delete_file_found e s w r Hr), Hup. cbn [snd db bucket].
  apply getFileById_Some in Hr as [Hin ->].
  split; [now apply deleteFile_count|]. split; [|split].
  - intros j Hj. apply getFileById_deleteFile_other. congruence.
  - apply lookup_delete_eq.
  - intros k Hk. apply lookup_delete_ne. congruence.
Qed.

Lemma purge_removes_one_witness :
  countFiles (db (snd (delete_file env_ok "1" world_a))) = countFiles (db world_a) - 1.
Proof.
  assert (Hwf : wf (db world_a))
    by apply (run_wf [(env_ok, PostFiles (Some file_a))] empty_world wf_empty).
  apply (purge_removes_one env_ok "1" world_a
           (FileRow.mk 1 "a.txt" 10 "text/plain" "files/1700000000123-a.txt" 0 0 1700000000)
           Hwf eq_refl eq_refl).
Defined.

(** ** Flag routes, composed *)

Lemma flag_update_map (op : FlagOp) (i : JSNum) (d : Db) :
  flag_update op i d =
  {| rows := map (fun r => if id_is i r then with_flag op r else r) (rows d);
     sqlite_sequence := sqlite_sequence d |}.
Proof. destruct op; reflexivity. Qed.

Lemma id_is_with_flag (op : FlagOp) (i : JSNum) (r : Row) :
  id_is i (with_flag op r) = id_is i r.
Proof. destruct op, i; reflexivity. Qed.

Lemma getFileById_flag_update (op : FlagOp) (i j : JSNum) (d : Db) :
  getFileById j (flag_update op i d)
  = option_map (fun r => if id_is i r then with_flag op r else r) (getFileById j d).
Proof.
  rewrite flag_update_map. unfold getFileById. simpl.
  induction (rows d) as [|r l IH]; simpl; [reflexivity|].
  assert (Hsame : id_is j (if id_is i r then with_flag op r else r) = id_is j r)
    by (destruct (id_is i r); [apply id_is_with_flag | reflexivity]).
  rewrite Hsame. destruct (id_is j r); [reflexivity | exact IH].
Qed.

Lemma post_flag_db (op : FlagOp) (s : string) (w : World) :
  db (snd (post_flag op s w)) = flag_update op (parseInt s) (db w) /\
  bucket (snd (post_flag op s w)) = bucket w.
Proof.
  destruct (getFileById (parseInt s) (db w)) as [r|] eqn:H.
  - rewrite (post_flag_found op s w r H). split; reflexivity.
  - pose proof (id_route_not_found (Flag op) s w H) as Hnf. cbn [id_route] in Hnf.
    rewrite Hnf. cbn [snd]. split; [|reflexivity].
    rewrite flag_update_map. destruct (db w) as [rs sq]. simpl in *. f_equal.
    rewrite <- (map_id rs) at 1. apply map_ext_in. intros r Hr.
    destruct (id_is (parseInt s) r) eqn:Hid; [|reflexivity].
    exfalso. unfold getFileById in H. simpl in H.
    apply (find_none _ _ H) in Hr. congruence.
Qed.

Lemma post_flag_answer (op : FlagOp) (s : string) (w w' : World) :
  (forall j, getFileById j (db w') = None <-> getFileById j (db w) = None) ->
  fst (post_flag op s w') = fst (post_flag op s w).
Proof.
  intros H.
  destruct (getFileById (parseInt s) (db w)) as [r|] eqn:Hr.
  - destruct (getFileById (parseInt s) (db w')) as [r'|] eqn:Hr'.
    + now rewrite (post_flag_found op s w r Hr), (post_flag_found op s w' r' Hr').
    + apply H in Hr'. congruence.
  - pose proof (proj2 (H _) Hr) as Hr'.
    pose proof (id_route_not_found (Flag op) s w Hr) as Hnf.
    pose proof (id_route_not_found (Flag op) s w' Hr') as Hnf'.
    cbn [id_route] in Hnf, Hnf'. now rewrite Hnf, Hnf'.
Qed.

Lemma flag_update_keeps_found (op : FlagOp) (i j : JSNum) (d : Db) :
  getFileById j (flag_update op i d) = None <-> getFileById j d = None.
Proof.
  rewrite getFileById_flag_update. destruct (getFileById j d); simpl; split; congruence.
Qed.

(** X9: what the download route answers for an id does not depend on any
    flag: after any flag route on any id the answer is the one before it;
    in particular a record in the trash is still handed out. *)
Theorem download_ignores_flags (e : Env) (s s2 : string) (op : FlagOp) (w : World) :
  fst (get_download e s (snd (post_flag op s2 w))) = fst (get_download e s w).
Proof.
  destruct (post_flag_db op s2 w) as [Hdb _].
  pose proof (getFileById_flag_update op (parseInt s2) (parseInt s) (db w)) as Hget.
  rewrite <- Hdb in Hget.
  destruct (getFileById (parseInt s) (db w)) as [r|] eqn:Hr; simpl in Hget.
  - rewrite (get_download_found e s w r Hr), (get_download_found e s _ _ Hget).
    destruct (id_is (parseInt s2) r); [|reflexivity].
    destruct op; reflexivity.
  - pose proof (id_route_not_found (Download e) s w Hr) as Hnf.
    pose proof (id_route_not_found (Download e) s _ Hget) as Hnf'.
    cbn [id_route] in Hnf, Hnf'. now rewrite Hnf, Hnf'.
Qed.

(** X10: a flag route on an existing record changes that one flag of that
    one row and nothing else: looking up the id gives the row with the flag
    at the written value and every other field (the other flag too) as
    before, every other id is looked up as before, and the row count and the
    bucket are as before. *)
Theorem flag_changes_one_field (op : FlagOp) (s : string) (w : World) (r : Row) :
  getFileById (parseInt s) (db w) = Some r ->
  let w' := snd (post_flag op s w) in
  getFileById (parseInt s) (db w') = Some (with_flag op r) /\
  flag_of op (with_flag op r) = flag_target op /\
  flag_of (if same_column op Star then Trash else Star) (with_flag op r)
    = flag_of (if same_column op Star then Trash else Star) r /\
  (FileRow.id (with_flag op r) = FileRow.id r /\
   FileRow.name (with_flag op r) = FileRow.name r /\
   FileRow.size (with_flag op r) = FileRow.size r /\
   FileRow.content_type (with_flag op r) = FileRow.content_type r /\
   FileRow.s3_key (with_flag op r) = FileRow.s3_key r /\
   FileRow.created_at (with_flag op r) = FileRow.created_at r) /\
  (forall j, j <> parseInt s -> getFileById j (db w') = getFileById j (db w)) /\
  countFiles (db w') = countFiles (db w) /\
  bucket w' = bucket w.
Proof.
  intros Hr. cbv zeta.
  destruct (post_flag_db op s w) as [-> ->].
  split; [|split; [|split; [|split; [|split; [|split]]]]].
  - rewrite getFileById_flag_update, Hr. simpl.
    apply getFileById_Some in Hr as [_ ->]. simpl. now rewrite Z.eqb_refl.
  - destruct op; reflexivity.
  - destruct op; reflexivity.
  - destruct op; repeat split.
  - intros j Hj. rewrite getFileById_flag_update.
    destruct (getFileById j (db w)) as [r'|] eqn:Hr'; [|reflexivity]. simpl.
    apply getFileById_Some in Hr' as [_ ->].
    destruct (parseInt s) as [|z]; simpl; [reflexivity|].
    destruct (Z.eqb_spec (FileRow.id r') z); [congruence | reflexivity].
  - rewrite flag_update_map. unfold countFiles. simpl. now rewrite length_map.
  - reflexivity.
Qed.

Lemma flag_changes_one_field_witness :
  getFileById (Num 1) (db (snd (post_flag Star "1" world_a)))
  = Some (FileRow.mk 1 "a.txt" 10 "text/plain" "files/1700000000123-a.txt" 1 0 1700000000).
Proof.
  apply (flag_changes_one_field Star "1" world_a
           (FileRow.mk 1 "a.txt" 10 "text/plain" "files/1700000000123-a.txt" 0 0 1700000000)
           eq_refl).
Defined.

Lemma flag_update_overwrite (op1 op2 : FlagOp) (i : JSNum) (d : Db) :
  same_column op1 op2 = true ->
  flag_update op2 i (flag_update op1 i d) = flag_update op2 i d.
Proof.
  intros Hcol. rewrite !flag_update_map. simpl. f_equal.
  rewrite map_map. apply map_ext. intros r.
  destruct (id_is i r) eqn:Hid; [|now rewrite Hid].
  rewrite id_is_with_flag, Hid.
  destruct op1, op2; try discriminate; reflexivity.
Qed.

(** X11: of two flag routes on the same flag of the same existing record the
    last one decides: the table after both is the table after the second
    alone, and both are answered 200. *)
Theorem flag_last_write_wins (op1 op2 : FlagOp) (s : string) (w : World) (r : Row) :
  same_column op1 op2 = true ->
  getFileById (parseInt s) (db w) = Some r ->
  let w1 := snd (post_flag op1 s w) in
  status (fst (post_flag op1 s w)) = 200 /\
  status (fst (post_flag op2 s w1)) = 200 /\
  db (snd (post_flag op2 s w1)) = db (snd (post_flag op2 s w)).
Proof.
  intros Hcol Hr. cbv zeta.
  destruct (post_flag_db op2 s (snd (post_flag op1 s w))) as [-> _].
  destruct (post_flag_db op1 s w) as [Hdb1 _].
  destruct (post_flag_db op2 s w) as [-> _].
  rewrite (post_flag_answer op2 s w (snd (post_flag op1 s w)))
    by (intros j; rewrite Hdb1; apply flag_update_keeps_found).
  rewrite Hdb1, (post_flag_found op1 s w r Hr), (post_flag_found op2 s w r Hr).
  cbn [fst status]. repeat split. now apply flag_update_overwrite.
Qed.

Lemma flag_last_write_wins_witness :
  db (snd (post_flag Restore "1" (snd (post_flag Trash "1" world_a))))
  = db (snd (post_flag Restore "1" world_a)).
Proof.
  apply (flag_last_write_wins Trash Restore "1" world_a
           (FileRow.mk 1 "a.txt" 10 "text/plain" "files/1700000000123-a.txt" 0 0 1700000000)
           eq_refl eq_refl).
Defined.

(** X12: a flag route followed by its opposite (trash then restore, star
    then unstar, and the other way round) gives back the table as it was,
    when the record had the value that the opposite route writes. *)
Theorem flag_undo_round_trip (op : FlagOp) (s : string) (w : World) (r : Row) :
  wf (db w) ->
  getFileById (parseInt s) (db w) = Some r ->
  flag_of op r = flag_target (undo op) ->
  db (snd (post_flag (undo op) s (snd (post_flag op s w)))) = db w.
Proof.
  intros Hwf Hr Hflag.
  destruct (post_flag_db (undo op) s (snd (post_flag op s w))) as [-> _].
  destruct (post_flag_db op s w) as [-> _].
  rewrite flag_update_overwrite by (destruct op; reflexivity).
  apply (flag_update_same (undo op) _ _ r Hwf Hr).
  destruct op; exact Hflag.
Qed.

Lemma flag_undo_round_trip_witness :
  db (snd (post_flag Restore "1" (snd (post_flag Trash "1" world_a)))) = db world_a.
Proof.
  assert (Hwf : wf (db world_a))
    by apply (run_wf [(env_ok, PostFiles (Some file_a))] empty_world wf_empty).
  apply (flag_undo_round_trip Trash "1" world_a
           (FileRow.mk 1 "a.txt" 10 "text/plain" "files/1700000000123-a.txt" 0 0 1700000000)
           Hwf eq_refl eq_refl).
Defined.

Lemma flag_update_commute (op1 op2 : FlagOp) (i1 i2 : JSNum) (d : Db) :
  same_column op1 op2 = false \/ i1 <> i2 ->
  flag_update op2 i2 (flag_update op1 i1 d) = flag_update op1 i1 (flag_update op2 i2 d).
Proof.
  intros H. rewrite !flag_update_map. simpl. f_equal.
  rewrite !map_map. apply map_ext. intros r.
  destruct (id_is i1 r) eqn:H1, (id_is i2 r) eqn:H2;
    rewrite ?id_is_with_flag, ?H1, ?H2; try reflexivity.
  destruct H as [Hcol | Hne].
  - destruct op1, op2; try discriminate; reflexivity.
  - exfalso. apply Hne.
    destruct i1 as [|a], i2 as [|b]; simpl in *; try discriminate.
    apply Z.eqb_eq in H1, H2. congruence.
Qed.

(** X13: two flag routes that write different flags, or address different
    ids (one of the two numbers at least a safe integer, so that JavaScript
    reads them as different too), can be served in either order: the table
    is the same and each is answered the same. *)
Theorem flags_commute (op1 op2 : FlagOp) (s1 s2 : string) (w : World) :
  same_column op1 op2 = false \/
  (parseInt s1 <> parseInt s2 /\
   (safe_number (parseInt s1) \/ safe_number (parseInt s2))) ->
  db (snd (post_flag op2 s2 (snd (post_flag op1 s1 w))))
  = db (snd (post_flag op1 s1 (snd (post_flag op2 s2 w)))) /\
  fst (post_flag op2 s2 (snd (post_flag op1 s1 w))) = fst (post_flag op2 s2 w) /\
  fst (post_flag op1 s1 (snd (post_flag op2 s2 w))) = fst (post_flag op1 s1 w).
Proof.
  intros H.
  destruct (post_flag_db op2 s2 (snd (post_flag op1 s1 w))) as [-> _].
  destruct (post_flag_db op1 s1 (snd (post_flag op2 s2 w))) as [-> _].
  destruct (post_flag_db op1 s1 w) as [Hdb1 _].
  destruct (post_flag_db op2 s2 w) as [Hdb2 _].
  split; [|split].
  - rewrite Hdb1, Hdb2. apply flag_update_commute. destruct H as [H | [H _]]; auto.
  - apply post_flag_answer. intros j. rewrite Hdb1. apply flag_update_keeps_found.
  - apply post_flag_answer. intros j. rewrite Hdb2. apply flag_update_keeps_found.
Qed.

Lemma flags_commute_witness :
  db (snd (post_flag Trash "1" (snd (post_flag Star "1" world_a))))
  = db (snd (post_flag Star "1" (snd (post_flag Trash "1" world_a)))).
Proof.
  apply (flags_commute Star Trash "1" "1" world_a). left. reflexivity.
Defined.

(** ** The id in the path *)

Lemma parse_digits_text_app (d : Decimal.uint) (rest : string) :
  d <> Decimal.Nil -> d <> Decimal.D0 Decimal.Nil ->
  decimal_prefix rest = Decimal.Nil ->
  parse_digits (NilEmpty.string_of_uint d +:+ rest) = Some (Z.of_N (N.of_uint d)).
Proof.
  intros Hd Hz Hrest.
  assert (Hdec : parse_digits (NilEmpty.string_of_uint d +:+ rest) =
                 match decimal_prefix (NilEmpty.string_of_uint d +:+ rest) with
                 | Decimal.Nil => None
                 | d0 => Some (Z.of_N (N.of_uint d0))
                 end).
  { destruct d as [|d'|d'|d'|d'|d'|d'|d'|d'|d'|d']; try congruence; try reflexivity.
    destruct d'; try congruence; reflexivity. }
  rewrite Hdec, (decimal_prefix_app d rest Hrest).
  destruct d; congruence.
Qed.

Lemma parseInt_trailing (n : Z) (rest : string) :
  1 <= n -> decimal_prefix rest = Decimal.Nil ->
  parseInt (Number_toString n +:+ rest) = Num n.
Proof.
  intros Hn Hrest. unfold Number_toString.
  destruct (Z.ltb_spec n 0) as [|_]; [lia|].
  set (d := N.to_uint (Z.to_N n)).
  assert (Hd : d <> Decimal.Nil) by apply N_to_uint_nonnil.
  assert (Hz : d <> Decimal.D0 Decimal.Nil).
  { intros Heq. pose proof (DecimalN.Unsigned.of_to (Z.to_N n)) as Hof.
    fold d in Hof. rewrite Heq in Hof. simpl in Hof. lia. }
  destruct (text_no_space_or_sign d Hd) as (c & s & Hs & Hw & Hm & Hp).
  unfold parseInt. rewrite Hs. simpl. rewrite Hw.
  assert (Hsign :
    match String c (s +:+ rest) with
    | String "-"%char r => (-1, r)
    | String "+"%char r => (1, r)
    | _ => (1, String c (s +:+ rest))
    end = (1, String c (s +:+ rest))).
  { destruct c as [[] [] [] [] [] [] [] []]; try reflexivity; congruence. }
  rewrite Hsign.
  change (String c (s +:+ rest)) with (String c s +:+ rest).
  rewrite <- Hs, (parse_digits_text_app d rest Hd Hz Hrest).
  unfold d. rewrite DecimalN.Unsigned.of_to. f_equal. lia.
Qed.

Lemma id_route_parse (rt : IdRoute) (s s' : string) (w : World) :
  parseInt s = parseInt s' -> id_route rt s w = id_route rt s' w.
Proof.
  intros H. destruct rt as [e|[]|e]; simpl;
    unfold get_download, post_star, post_unstar, post_trash, post_restore, delete_file;
    rewrite H; reflexivity.
Qed.

(** X14: an id route reads the path parameter with [parseInt], so text after
    the digits is ignored: the parameter made of the decimal text of an id
    (1 or more) followed by any text that does not start with a digit is
    served exactly as the id alone. *)
Theorem route_ignores_trailing_text (rt : IdRoute) (n : Z) (rest : string) (w : World) :
  1 <= n ->
  decimal_prefix rest = Decimal.Nil ->
  id_route rt (Number_toString n +:+ rest) w = id_route rt (Number_toString n) w.
Proof.
  intros Hn Hrest. apply id_route_parse.
  rewrite parseInt_trailing by assumption.
  symmetry. apply parseInt_Number_toString. lia.
Qed.

Lemma route_ignores_trailing_text_witness :
  id_route (Purge env_ok) "1abc" world_a = id_route (Purge env_ok) "1" world_a.
Proof.
  apply (route_ignores_trailing_text (Purge env_ok) 1 "abc" world_a); [lia | reflexivity].
Defined.

(** ** What holds in every world reached from the empty one *)






(** ** The upload route *)

Lemma prefix_app (p m : string) :
  String.prefix p m = true <-> exists rest, m = p +:+ rest.
Proof.
  revert m. induction p as [|c p IH]; intros m; simpl.
  - split; [intros _; exists m; reflexivity | intros _; destruct m; reflexivity].
  - destruct m as [|c' m]; [split; [discriminate | intros [rest H]; discriminate H]|].
    simpl. destruct (Ascii.ascii_dec c c') as [->|Hne].
    + rewrite IH. split; intros [rest H]; exists rest; [now rewrite H | now injection H].
    + split; [discriminate | intros [rest H]; injection H; congruence].
Qed.

Lemma allowedMimes_spec (m : string) :
  allowedMimes m = true <->
  exists p rest, In p allowed_prefixes /\ m = p +:+ "/" +:+ rest.
Proof.
  unfold allowedMimes, allowed_prefixes. rewrite !orb_true_iff, !prefix_app. split.
  - intros [[[[[rest H]|[rest H]]|[rest H]]|[rest H]]|[rest H]];
      [exists "image" | exists "video" | exists "audio" | exists "application" | exists "text"];
      exists rest; simpl; tauto.
  - intros (p & rest & Hp & ->). simpl in Hp.
    destruct Hp as [<-|[<-|[<-|[<-|[<-|[]]]]]]; eauto 10.
Qed.

(** X16: an upload whose MIME type does not start with [image/], [video/],
    [audio/], [application/] or [text/] is answered 400 "Invalid file type";
    one of an accepted type but of more than 100 MiB is answered 413; in both
    cases nothing is stored (no object, no row); an upload of an accepted
    type and of less than 100 MiB reaches the handler.  All three hold
    whichever way the installed multer treats a part of exactly 100 MiB. *)
Theorem upload_route_rejects (at_limit : bool) (e : Env) (f : UploadedFile) (w : World) :
  ((forall p rest, In p allowed_prefixes -> mimetype f <> p +:+ "/" +:+ rest) ->
   post_files_route at_limit e (Some f) w
   = ({| status := 400; body := JError "Invalid file type" |}, w)) /\
  (allowedMimes (mimetype f) = true -> 104857600 < size f ->
   post_files_route at_limit e (Some f) w
   = ({| status := 413; body := JError "File too large" |}, w)) /\
  (allowedMimes (mimetype f) = true -> size f < 104857600 ->
   post_files_route at_limit e (Some f) w = post_files e (Some f) w).
Proof.
  unfold post_files_route, upload_single, fileFilter. repeat split.
  - intros H. destruct (allowedMimes (mimetype f)) eqn:Ha; [|reflexivity].
    apply allowedMimes_spec in Ha as (p & rest & Hp & Hm). now apply H in Hm.
  - intros -> Hsz. change fileSize with 104857600.
    destruct (Z.ltb_spec 104857600 (size f)); [reflexivity | lia].
  - intros -> Hsz. change fileSize with 104857600.
    destruct (Z.ltb_spec 104857600 (size f)); [lia|].
    destruct (Z.eqb_spec (size f) 104857600); [lia|].
    rewrite andb_false_r. reflexivity.
Qed.

Lemma upload_route_rejects_witness :
  post_files_route true env_ok (Some file_font) world_a
  = ({| status := 400; body := JError "Invalid file type" |}, world_a) /\
  post_files_route false env_ok (Some file_huge) world_a
  = ({| status := 413; body := JError "File too large" |}, world_a) /\
  post_files_route true env_ok (Some file_b) world_a = post_files env_ok (Some file_b) world_a.
Proof.
  split; [|split].
  - apply (upload_route_rejects true env_ok file_font world_a).
    intros p rest Hp. simpl in Hp.
    destruct Hp as [<-|[<-|[<-|[<-|[<-|[]]]]]]; discriminate.
  - apply (upload_route_rejects false env_ok file_huge world_a); [reflexivity | simpl; lia].
  - apply (upload_route_rejects true env_ok file_b world_a); [reflexivity | simpl; lia].
Defined.

(** ** The views of the client *)

Lemma prefix_empty (s : string) : String.prefix "" s = true.
Proof. destruct s; reflexivity. Qed.

Lemma includes_empty (s : string) : includes s "" = true.
Proof. destruct s; reflexivity. Qed.

Lemma matchesSearch_empty (r : Row) : matchesSearch r "" = true.
Proof. unfold matchesSearch. apply includes_empty. Qed.

(** X17: the Recent view lists exactly what the My Drive view lists; the
    Starred view lists the records of the My Drive view that are starred; a
    section of any other name than the four lists nothing. *)
Theorem section_views (fs : list Row) (searchTerm : string) :
  filteredFiles fs searchTerm "Recent" = filteredFiles fs searchTerm "My Drive" /\
  (forall r, In r (filteredFiles fs searchTerm "Starred") <->
             In r (filteredFiles fs searchTerm "My Drive") /\
             truthy (FileRow.starred r) = true) /\
  (forall section, ~ In section ["My Drive"; "Starred"; "Trash"; "Recent"] ->
                   filteredFiles fs searchTerm section = []).
Proof.
  split; [reflexivity|]. split.
  - intros r. unfold filteredFiles. cbn [String.eqb Ascii.eqb Bool.eqb].
    rewrite !filter_In.
    destruct (truthy (FileRow.trashed r)), (matchesSearch r searchTerm),
      (truthy (FileRow.starred r)); simpl; intuition congruence.
  - intros section Hs. unfold filteredFiles.
    assert (H1 : String.eqb section "My Drive" = false)
      by (apply String.eqb_neq; intros ->; apply Hs; simpl; auto).
    assert (H2 : String.eqb section "Starred" = false)
      by (apply String.eqb_neq; intros ->; apply Hs; simpl; auto).
    assert (H3 : String.eqb section "Trash" = false)
      by (apply String.eqb_neq; intros ->; apply Hs; simpl; auto).
    assert (H4 : String.eqb section "Recent" = false)
      by (apply String.eqb_neq; intros ->; apply Hs; simpl; auto).
    rewrite H1, H2, H3, H4. induction fs; simpl; auto.
Qed.

Lemma section_views_witness :
  filteredFiles [trashed_row] "" "my drive" = [].
Proof.
  apply (section_views [trashed_row] "").
  simpl. intros [H|[H|[H|[H|[]]]]]; discriminate H.
Defined.

Lemma filter_split {A : Type} (p q m : A -> bool) (l : list A) :
  (forall x, p x = negb (q x) && m x /\ (q x = true -> m x = true) \/
             p x = m x /\ q x = false) ->
  Permutation (List.filter p l ++ List.filter q l) (List.filter m l).
Proof.
  intros H. induction l as [|a l IH]; simpl; [constructor|].
  destruct (H a) as [[Hp Hq]|[Hp Hq]]; rewrite Hp.
  - destruct (q a) eqn:Ha; simpl.
    + rewrite (Hq eq_refl). symmetry. apply Permutation_cons_app. now symmetry.
    + destruct (m a); simpl; [now constructor | exact IH].
  - rewrite Hq. destruct (m a); simpl; [now constructor | exact IH].
Qed.

(** X18: for any search term, the My Drive view and the Trash view together
    hold exactly the fetched records that match the term, each once; with
    the empty term they hold every fetched record. *)
Theorem views_partition (fs : list Row) (searchTerm : string) :
  Permutation (filteredFiles fs searchTerm "My Drive" ++ filteredFiles fs searchTerm "Trash")
              (List.filter (fun r => matchesSearch r searchTerm) fs) /\
  Permutation (filteredFiles fs "" "My Drive" ++ filteredFiles fs "" "Trash") fs.
Proof.
  assert (H : forall t,
    Permutation (filteredFiles fs t "My Drive" ++ filteredFiles fs t "Trash")
                (List.filter (fun r => matchesSearch r t) fs)).
  { intros t. unfold filteredFiles. cbn [String.eqb Ascii.eqb Bool.eqb].
    apply filter_split. intros r.
    destruct (truthy (FileRow.trashed r)), (matchesSearch r t); simpl; auto. }
  split; [apply H|].
  rewrite (H ""). rewrite filter_all; [reflexivity|].
  intros r _. apply matchesSearch_empty.
Qed.

Lemma includes_spec (s t : string) :
  includes s t = true <-> exists a b, s = a +:+ t +:+ b.
Proof.
  induction s as [|c s IH].
  - split.
    + destruct t; [intros _; exists "", ""; reflexivity | discriminate].
    + intros (a & b & H). destruct a, t; try discriminate H; reflexivity.
  - change (includes (String c s) t) with (String.prefix t (String c s) || includes s t).
    rewrite orb_true_iff, prefix_app, IH. split.
    + intros [[rest H] | (a & b & H)].
      * exists "", rest. exact H.
      * exists (String c a), b. simpl. now rewrite H.
    + intros (a & b & H). destruct a as [|c' a].
      * left. exists b. exact H.
      * right. simpl in H. injection H as _ H. eauto.
Qed.

Lemma lower_char_twice (c : ascii) : lower_char (lower_char c) = lower_char c.
Proof.
  destruct c as [[] [] [] [] [] [] [] []]; reflexivity.
Qed.

Lemma toLowerCase_twice (s : string) : toLowerCase (toLowerCase s) = toLowerCase s.
Proof.
  induction s as [|c s IH]; simpl; [reflexivity|]. now rewrite lower_char_twice, IH.
Qed.

(** X19: a record matches the search term exactly when its name, put in
    lower case by [toLowerCase], contains the term put in lower case; hence
    a term and the term put in lower case give the same view. *)
Theorem search_is_case_insensitive (fs : list Row) (searchTerm section : string) (r : Row) :
  (matchesSearch r searchTerm = true <->
   exists a b, toLowerCase (FileRow.name r) = a +:+ toLowerCase searchTerm +:+ b) /\
  filteredFiles fs (toLowerCase searchTerm) section = filteredFiles fs searchTerm section.
Proof.
  split; [apply includes_spec|].
  unfold filteredFiles, matchesSearch. now rewrite toLowerCase_twice.
Qed.

(** ** The calls of the client *)

Lemma resolves_200 (b : Json) : resolves {| status := 200; body := b |} = true.
Proof. reflexivity. Qed.

Lemma fetchFiles_eval (page : Z) (a : App) (w : World) :
  fetchFiles page a w =
  ({| files := selectFiles 100 ((effective_page (num_query page) - 1) * 100) (db w);
      pagination :=
        Some {| currentPage := effective_page (num_query page);
                totalItems := countFiles (db w);
                totalPages := ceil_div (countFiles (db w)) 100;
                itemsPerPage := 100;
                hasNext := effective_page (num_query page) <? ceil_div (countFiles (db w)) 100;
                hasPrev := 1 <? effective_page (num_query page) |};
      error := None |}, w).
Proof.
  unfold fetchFiles. fold (num_query page). rewrite get_files_eval. reflexivity.
Qed.

Lemma in_firstn {A : Type} (n : nat) (l : list A) (x : A) : In x (firstn n l) -> In x l.
Proof.
  intros H. rewrite <- (firstn_skipn n l). apply in_or_app. now left.
Qed.

Lemma in_skipn {A : Type} (n : nat) (l : list A) (x : A) : In x (skipn n l) -> In x l.
Proof.
  intros H. rewrite <- (firstn_skipn n l). apply in_or_app. now right.
Qed.

Lemma selectFiles_in (limit offset : Z) (d : Db) (x : Row) :
  In x (selectFiles limit offset d) -> In x (rows d).
Proof.
  unfold selectFiles. intros H.
  apply (Permutation_in _ (order_by_perm (rows d))).
  destruct (limit <? 0); [|apply in_firstn in H]; now apply in_skipn in H.
Qed.

Lemma order_by_map (g : Row -> Row) (l : list Row) :
  (forall r, FileRow.created_at (g r) = FileRow.created_at r) ->
  order_by_created_at_desc (map g l) = map g (order_by_created_at_desc l).
Proof.
  intros Hg.
  assert (Hins : forall r k, insert_desc (g r) (map g k) = map g (insert_desc r k)).
  { intros r k. induction k as [|y k IH]; simpl; [reflexivity|].
    rewrite !Hg. destruct (FileRow.created_at y <=? FileRow.created_at r); simpl;
      [reflexivity | now rewrite IH]. }
  unfold order_by_created_at_desc.
  induction l as [|r l IH]; simpl; [reflexivity|].
  now rewrite IH, Hins.
Qed.

Lemma selectFiles_flag_update (op : FlagOp) (i : JSNum) (limit offset : Z) (d : Db) :
  selectFiles limit offset (flag_update op i d)
  = map (fun r => if id_is i r then with_flag op r else r) (selectFiles limit offset d).
Proof.
  unfold selectFiles. rewrite flag_update_map. cbn [rows].
  rewrite order_by_map.
  - destruct (limit <? 0); [|rewrite <- firstn_map]; now rewrite <- skipn_map.
  - intros r. destruct (id_is i r); [destruct op|]; reflexivity.
Qed.

(** X20: for every page number that is a safe integer, the client ends a
    fetch with at most 100 records and no error message, and the fetch
    changes nothing on the server; for a page of 1 or more it holds that
    page of 100. *)
Theorem fetchFiles_holds_a_page (page : Z) (a : App) (w : World) :
  safe_integer page ->
  snd (fetchFiles page a w) = w /\
  error (fst (fetchFiles page a w)) = None /\
  (length (files (fst (fetchFiles page a w))) <= 100)%nat /\
  (1 <= page ->
   files (fst (fetchFiles page a w)) = list_page w page 100 /\
   current_page (fst (fetchFiles page a w)) = page).
Proof.
  intros _. rewrite fetchFiles_eval. cbn [fst snd files error].
  split; [reflexivity|]. split; [reflexivity|]. split.
  - apply (selectFiles_length 100). lia.
  - intros Hp. unfold list_page. rewrite get_files_eval. cbv zeta. cbn [fst files_of body].
    rewrite effective_limit_num by lia. split; [reflexivity|].
    unfold current_page. cbn [pagination currentPage].
    rewrite effective_page_num by lia. destruct (Z.eqb_spec page 0); [lia | reflexivity].
Qed.

Lemma fetchFiles_holds_a_page_witness :
  files (fst (fetchFiles 1 (mkApp [] None None) world_a)) = list_page world_a 1 100.
Proof.
  apply (fetchFiles_holds_a_page 1 (mkApp [] None None) world_a).
  - unfold safe_integer, MAX_SAFE_INTEGER. lia.
  - lia.
Defined.

(** X21: when the client moves a record of its current page to the trash,
    the list it then holds is that page with the record's [trashed] set to
    1: with no search term the record is in the Trash view and no record of
    that id is in the My Drive view, and no error message is set. *)
Theorem moveToTrash_moves (fileId : Z) (a : App) (w : World) (r : Row) :
  getFileById (Num fileId) (db w) = Some r ->
  1 <= current_page a ->
  In r (list_page w (current_page a) 100) ->
  let a' := fst (moveToTrash fileId a w) in
  error a' = None /\
  files a' = map (fun x => if FileRow.id x =? fileId then set_trashed 1 x else x)
                 (list_page w (current_page a) 100) /\
  In (set_trashed 1 r) (filteredFiles (files a') "" "Trash") /\
  (forall x, In x (filteredFiles (files a') "" "My Drive") -> FileRow.id x <> fileId).
Proof.
  intros Hr Hp Hin. cbv zeta. unfold moveToTrash.
  assert (Hfound : getFileById (parseInt (Number_toString fileId)) (db w) = Some r)
    by now rewrite parseInt_Number_toString_all.
  pose proof (post_flag_found Trash (Number_toString fileId) w r Hfound) as Hpost.
  cbn [post_flag] in Hpost. rewrite Hpost. rewrite resolves_200. cbv iota.
  rewrite fetchFiles_eval. cbn [fst files error db].
  rewrite parseInt_Number_toString_all.
  rewrite (selectFiles_flag_update Trash (Num fileId)).
  assert (Hpage : selectFiles 100 ((effective_page (num_query (current_page a)) - 1) * 100) (db w)
                  = list_page w (current_page a) 100).
  { unfold list_page. rewrite get_files_eval. cbv zeta. cbn [fst files_of body].
    now rewrite effective_limit_num by lia. }
  rewrite Hpage. cbn [with_flag flag_target id_is].
  apply getFileById_Some in Hr as [_ [= Hid]].
  split; [reflexivity|]. split; [reflexivity|]. split.
  - unfold filteredFiles. cbn [String.eqb Ascii.eqb Bool.eqb]. apply filter_In. split.
    + apply in_map_iff. exists r. split; [|exact Hin].
      rewrite <- Hid, Z.eqb_refl. reflexivity.
    + rewrite matchesSearch_empty. reflexivity.
  - intros x Hx Heq. unfold filteredFiles in Hx. cbn [String.eqb Ascii.eqb Bool.eqb] in Hx.
    apply filter_In in Hx as [Hx Hview].
    apply in_map_iff in Hx as (y & <- & Hy).
    destruct (Z.eqb_spec (FileRow.id y) fileId) as [Hy'|Hy']; [discriminate Hview|].
    now apply Hy'.
Qed.

Lemma moveToTrash_moves_witness :
  files (fst (moveToTrash 1 (mkApp [] None None) world_a))
  = [FileRow.mk 1 "a.txt" 10 "text/plain" "files/1700000000123-a.txt" 0 1 1700000000].
Proof.
  refine (proj1 (proj2 (moveToTrash_moves 1 (mkApp [] None None) world_a
            (FileRow.mk 1 "a.txt" 10 "text/plain" "files/1700000000123-a.txt" 0 0 1700000000)
            eq_refl _ _))).
  - vm_compute. discriminate.
  - left. reflexivity.
Defined.

(** X22: when the id that the client addresses is the id of no row (the
    record was deleted meanwhile), each call of the client (move to trash,
    restore, permanent delete, download, star toggle) only sets its error
    message: the list and the pagination the client holds stay as they were,
    nothing is fetched again and nothing changes on the server. *)
Theorem client_keeps_list_on_error (e : Env) (file : Row) (a : App) (w : World) :
  getFileById (Num (FileRow.id file)) (db w) = None ->
  moveToTrash (FileRow.id file) a w = (with_error a "Failed to move file to Trash", w) /\
  restoreFile (FileRow.id file) a w = (with_error a "Failed to restore file", w) /\
  deletePermanently true e (FileRow.id file) a w
    = (with_error a "Failed to permanently delete file", w) /\
  downloadFile e (FileRow.id file) a w = (with_error a "Failed to download file", None, w) /\
  toggleStar file a w = (with_error a "Failed to update star status", w).
Proof.
  intros Hnone.
  assert (H : getFileById (parseInt (Number_toString (FileRow.id file))) (db w) = None)
    by now rewrite parseInt_Number_toString_all.
  pose proof (id_route_not_found (Flag Trash) _ _ H) as Ht.
  pose proof (id_route_not_found (Flag Restore) _ _ H) as Hr.
  pose proof (id_route_not_found (Flag Star) _ _ H) as Hs.
  pose proof (id_route_not_found (Flag Unstar) _ _ H) as Hu.
  pose proof (id_route_not_found (Purge e) _ _ H) as Hp.
  pose proof (id_route_not_found (Download e) _ _ H) as Hd.
  cbn [id_route post_flag] in *.
  unfold moveToTrash, restoreFile, deletePermanently, downloadFile, toggleStar.
  rewrite Ht, Hr, Hp, Hd. repeat split.
  destruct (truthy (FileRow.starred file)); [rewrite Hu | rewrite Hs]; reflexivity.
Qed.

Lemma client_keeps_list_on_error_witness :
  moveToTrash 7 (mkApp [] None None) world_a
  = (with_error (mkApp [] None None) "Failed to move file to Trash", world_a).
Proof.
  apply (client_keeps_list_on_error env_ok
           (FileRow.mk 7 "x" 0 "text/plain" "files/0-x" 0 0 0) (mkApp [] None None) world_a).
  reflexivity.
Defined.

(** X23: the star toggle writes the opposite of the [starred] value in the
    client's copy of the record: for an existing record the stored flag is
    afterwards 0 if the copy was starred and 1 if it was not, so it has
    flipped whenever the copy agreed with the table. *)
Theorem toggleStar_flips (file : Row) (a : App) (w : World) (r : Row) :
  getFileById (Num (FileRow.id file)) (db w) = Some r ->
  let w' := snd (toggleStar file a w) in
  error (fst (toggleStar file a w)) = None /\
  getFileById (Num (FileRow.id file)) (db w')
    = Some (set_starred (if truthy (FileRow.starred file) then 0 else 1) r) /\
  (truthy (FileRow.starred file) = truthy (FileRow.starred r) ->
   forall r', getFileById (Num (FileRow.id file)) (db w') = Some r' ->
              truthy (FileRow.starred r') = negb (truthy (FileRow.starred r))).
Proof.
  intros Hr. cbv zeta.
  assert (Hfound : getFileById (parseInt (Number_toString (FileRow.id file))) (db w) = Some r)
    by now rewrite parseInt_Number_toString_all.
  pose proof (post_flag_found Star _ w r Hfound) as Hs.
  pose proof (post_flag_found Unstar _ w r Hfound) as Hu.
  cbn [post_flag] in Hs, Hu. unfold toggleStar.
  assert (Hget : forall op, same_column op Star = true ->
            getFileById (Num (FileRow.id file))
              (flag_update op (parseInt (Number_toString (FileRow.id file))) (db w))
            = Some (set_starred (flag_target op) r)).
  { intros op Hop. rewrite getFileById_flag_update, parseInt_Number_toString_all, Hr. simpl.
    apply getFileById_Some in Hr as [_ [= ->]]. rewrite Z.eqb_refl.
    destruct op; try discriminate Hop; reflexivity. }
  destruct (truthy (FileRow.starred file)) eqn:Hcopy.
  - rewrite Hu. rewrite resolves_200. cbv iota.
    rewrite fetchFiles_eval. cbn [fst snd error db].
    split; [reflexivity|]. split; [exact (Hget Unstar eq_refl)|].
    intros <- r'. rewrite (Hget Unstar eq_refl). now intros [= <-].
  - rewrite Hs. rewrite resolves_200. cbv iota.
    rewrite fetchFiles_eval. cbn [fst snd error db].
    split; [reflexivity|]. split; [exact (Hget Star eq_refl)|].
    intros <- r'. rewrite (Hget Star eq_refl). now intros [= <-].
Qed.

Lemma toggleStar_flips_witness :
  getFileById (Num 1)
    (db (snd (toggleStar
                (FileRow.mk 1 "a.txt" 10 "text/plain" "files/1700000000123-a.txt" 0 0 1700000000)
                (mkApp [] None None) world_a)))
  = Some (FileRow.mk 1 "a.txt" 10 "text/plain" "files/1700000000123-a.txt" 1 0 1700000000).
Proof.
  apply (toggleStar_flips
           (FileRow.mk 1 "a.txt" 10 "text/plain" "files/1700000000123-a.txt" 0 0 1700000000)
           (mkApp [] None None) world_a
           (FileRow.mk 1 "a.txt" 10 "text/plain" "files/1700000000123-a.txt" 0 0 1700000000)
           eq_refl).
Defined.

(** X24: a permanent delete that the user does not confirm does nothing; a
    confirmed one on an existing record, with S3 carrying out the delete,
    leaves the client with a freshly fetched list that holds no record of
    that id and no error message; with S3 failing, the client only sets its
    error message and the table is as before. *)
Theorem deletePermanently_client (e : Env) (fileId : Z) (a : App) (w : World) (r : Row) :
  getFileById (Num fileId) (db w) = Some r ->
  deletePermanently false e fileId a w = (a, w) /\
  (s3_up e = true ->
   error (fst (deletePermanently true e fileId a w)) = None /\
   (forall x, In x (files (fst (deletePermanently true e fileId a w))) ->
              FileRow.id x <> fileId) /\
   getFileById (Num fileId) (db (snd (deletePermanently true e fileId a w))) = None) /\
  (s3_up e = false ->
   fst (deletePermanently true e fileId a w)
     = with_error a "Failed to permanently delete file" /\
   db (snd (deletePermanently true e fileId a w)) = db w).
Proof.
  intros Hr. split; [reflexivity|].
  assert (Hfound : getFileById (parseInt (Number_toString fileId)) (db w) = Some r)
    by now rewrite parseInt_Number_toString_all.
  unfold deletePermanently.
  rewrite (delete_file_found e _ w r Hfound), parseInt_Number_toString_all.
  split; intros ->.
  - rewrite resolves_200. cbv iota.
    rewrite fetchFiles_eval. cbn [fst snd error files db].
    assert (Hgone : forall x, In x (rows (deleteFile (Num fileId) (db w))) ->
              FileRow.id x <> fileId).
    { intros x Hx. simpl in Hx. apply filter_In in Hx as [_ Hx].
      destruct (Z.eqb_spec (FileRow.id x) fileId); [discriminate | assumption]. }
    split; [reflexivity|]. split.
    + intros x Hx. apply Hgone. now apply selectFiles_in in Hx.
    + apply getFileById_None. intros x Hx [= Heq]. now apply (Hgone x).
  - split; reflexivity.
Qed.

Lemma deletePermanently_client_witness :
  files (fst (deletePermanently true env_ok 1 (mkApp [] None None) world_a)) = [] /\
  db (snd (deletePermanently true env_down 1 (mkApp [] None None) world_a)) = db world_a.
Proof.
  split.
  - reflexivity.
  - apply (deletePermanently_client env_down 1 (mkApp [] None None) world_a
             (FileRow.mk 1 "a.txt" 10 "text/plain" "files/1700000000123-a.txt" 0 0 1700000000)
             eq_refl).
    reflexivity.
Defined.

(** ** Checks of the built-ins on Latin-1 *)

Example parseInt_nbsp : parseInt (String "160"%char "1") = Num 1.
Proof. reflexivity. Qed.

Example lower_latin1 :
  toLowerCase (String "201"%char "T" +:+ String "215"%char "") = String "233"%char "t" +:+ String "215"%char "".
Proof. reflexivity. Qed.
